(** * Smart HVAC dashboard: the real-time aggregation engine

    A shallow embedding of [web_dashboard/static/js/dashboard.js]
    (class [SmartHVACDashboard]) and the properties of its series store,
    time-alignment pass, dataset builder, status display, liveness flag and
    bulk resync handler.

    Conventions of the embedding.
    - A JavaScript number that the code only copies (a metric value, a map
      coordinate) is an integer of [Z]; no arithmetic is done on it.
    - A [Date] is its time value [getTime()], an integer of [Z]
      (milliseconds); the model covers valid dates.
    - A plain object used as a map is the list of its own properties in
      creation order; reading a property also sees the members inherited
      from [Object.prototype], and enumerating the keys follows the
      language's own-property order.
    - A handler that raises leaves the mutations it made before raising:
      the effect monad returns the state together with the outcome. *)

From Stdlib Require Import List ZArith NArith Bool String Ascii Lia.
From Stdlib Require Import Sorting.Sorted.
Import ListNotations.

Local Open Scope string_scope.
Local Open Scope list_scope.
Local Open Scope Z_scope.

Set Implicit Arguments.

(* ===================================================================== *)
(** ** JavaScript values and plain objects *)
(* ===================================================================== *)

Module JS.

(** The values a payload field can hold as far as the engine is
    concerned: it never inspects them. *)
Inductive value : Type :=
| Undefined
| Null
| Num (z : Z).

(** The exceptions the modelled code can raise. *)
Inductive exn : Type :=
| TypeError.

(** Names every plain object inherits from [Object.prototype]; each of
    them is a function, or (for [__proto__]) the prototype object: a truthy
    value that has none of the properties the dashboard reads from it. *)
Definition Object_prototype_names : list string :=
  [ "constructor"; "hasOwnProperty"; "isPrototypeOf";
    "propertyIsEnumerable"; "toLocaleString"; "toString"; "valueOf";
    "__defineGetter__"; "__defineSetter__"; "__lookupGetter__";
    "__lookupSetter__"; "__proto__" ].

Definition inherited (k : string) : bool :=
  existsb (String.eqb k) Object_prototype_names.

(** A plain object holding values of type [A]: own properties in creation
    order. *)
Definition object (A : Type) : Type := list (string * A).

Fixpoint own {A} (o : object A) (k : string) : option A :=
  match o with
  | [] => None
  | (k', a) :: o' => if String.eqb k k' then Some a else own o' k
  end.

(** [o[k]]: an own property, else an inherited member, else
    [undefined]. *)
Inductive lookup (A : Type) : Type :=
| Own (a : A)
| Inherited
| Absent.
Arguments Inherited {A}.
Arguments Absent {A}.

Definition get {A} (o : object A) (k : string) : lookup A :=
  match own o k with
  | Some a => Own a
  | None => if inherited k then Inherited else Absent
  end.

(** [o[k] = a]: overwrite in place, or create at the end. *)
Fixpoint set {A} (o : object A) (k : string) (a : A) : object A :=
  match o with
  | [] => [(k, a)]
  | (k', a') :: o' =>
      if String.eqb k k' then (k', a) :: o' else (k', a') :: set o' k a
  end.

(** *** Own-property order

    [Object.keys] lists the keys that are array indices first, in
    ascending numeric order, then the other keys in creation order. A key
    is an array index when it is the canonical decimal form of an integer
    below 2^32 - 1. *)

Definition is_digit (c : ascii) : bool :=
  ((48 <=? nat_of_ascii c) && (nat_of_ascii c <=? 57))%nat.

Fixpoint digits (s : string) (acc : N) : option N :=
  match s with
  | EmptyString => Some acc
  | String c s' =>
      if is_digit c
      then digits s' (10 * acc + (N_of_ascii c - 48))%N
      else None
  end.

Definition array_index (k : string) : option N :=
  match k with
  | EmptyString => None
  | String c rest =>
      if Ascii.eqb c "0" && negb (String.eqb rest EmptyString) then None
      else match digits k 0%N with
           | Some n => if (n <? 4294967295)%N then Some n else None
           | None => None
           end
  end.

Definition is_index (k : string) : bool :=
  match array_index k with Some _ => true | None => false end.

Definition index_of (k : string) : N :=
  match array_index k with Some n => n | None => 0%N end.

Section Entries.
Context {A : Type}.

Fixpoint insert_by_index (e : string * A) (l : list (string * A))
  : list (string * A) :=
  match l with
  | [] => [e]
  | e' :: l' =>
      if (index_of (fst e) <=? index_of (fst e'))%N
      then e :: e' :: l'
      else e' :: insert_by_index e l'
  end.

Definition sort_by_index (l : list (string * A)) : list (string * A) :=
  fold_right insert_by_index [] l.

(** The own properties in enumeration order. *)
Definition entries (o : object A) : list (string * A) :=
  sort_by_index (filter (fun e => is_index (fst e)) o)
  ++ filter (fun e => negb (is_index (fst e))) o.

Definition keys (o : object A) : list string := map fst (entries o).
Definition values (o : object A) : list A := map snd (entries o).

End Entries.

(** [a.slice(-n)]: the last [n] elements, all of them when there are
    fewer. *)
Definition slice_last {A} (n : nat) (l : list A) : list A :=
  skipn (List.length l - n)%nat l.

End JS.

(* ===================================================================== *)
(** ** Data model *)
(* ===================================================================== *)

(** The four measurements of a reading payload ([data.data.data]); a field
    the payload lacks reads as [undefined]. *)
Record measurements : Type := {
  m_temperature : JS.value;
  m_humidity : JS.value;
  m_co2 : JS.value;
  m_occupancy : JS.value
}.

(** [data.data] of a [realtime_data] event, also the [latest_data] of a
    sensor in a bulk payload. [None] stands for a field that is [undefined]
    or [null]; [system_status] is a string when present. *)
Record sensor_data : Type := {
  sd_data : option measurements;
  sd_system_status : option string
}.

(** A [realtime_data] event. [rt_sensor_id] is the property key the
    payload's [sensor_id] converts to, [rt_timestamp] the time value of
    [new Date(data.timestamp)]. *)
Record realtime_event : Type := {
  rt_sensor_id : string;
  rt_timestamp : Z;
  rt_data : option sensor_data
}.

(** The object pushed on a sensor's buffer (lines 256-261). *)
Record reading : Type := {
  timestamp : Z;
  temperature : JS.value;
  humidity : JS.value;
  co2 : JS.value
}.

(** [this.sensorsData]: sensor id to buffer. *)
Definition series_store : Type := JS.object (list reading).

(** *** Chart datasets *)

(** The value [getSensorName] returns: a string, or for an id that names a
    member of [Object.prototype] that member itself. *)
Inductive name_value : Type :=
| NameString (s : string)
| NameMember (k : string).

(** A label: a string, or the host-defined text of a prototype member
    followed by a suffix. *)
Inductive text : Type :=
| Text (s : string)
| MemberText (k : string) (suffix : string).

(** A name used as a label. *)
Definition name_text (name : name_value) : text :=
  match name with
  | NameString s => Text s
  | NameMember k => MemberText k ""
  end.

(** [`${name}${suffix}`]. *)
Definition template (name : name_value) (suffix : string) : text :=
  match name with
  | NameString s => Text (s ++ suffix)%string
  | NameMember k => MemberText k suffix
  end.

(** [t.toLocaleTimeString('en-US', { hour: '2-digit', minute: '2-digit' })]:
    the text depends on the host's time zone, the label keeps the instant. *)
Inductive time_label : Type :=
| LocaleTime (t : Z).

Record dataset : Type := {
  label : text;
  data : list JS.value;
  borderColor : string;
  backgroundColor : string;
  yAxisID : option string;
  tension : Z * Z;                 (* a decimal literal, as a fraction *)
  fill : bool;
  borderDash : option (list Z);
  pointRadius : Z;
  pointHoverRadius : option Z
}.

Record chart_data : Type := {
  labels : list time_label;
  datasets : list dataset
}.

(** [this.charts]: a chart exists when its canvas was found at start. *)
Record charts_t : Type := {
  charts_temperature : option chart_data;
  charts_humidity : option chart_data
}.

(** *** The page

    Markup is not modelled: an element is the data it was rendered from. *)

(** The body of a card that shows data: the measurements written in it,
    the status the badge text was computed from ([getStatusText]) and the
    status its class was computed from ([status.toLowerCase()]). *)
Record card_body : Type := {
  shown : measurements;
  status_text_of : option string;
  status_class_of : string
}.

(** A child of [#sensorsContainer]. A card with a body owns the elements
    [temp-ID], [humidity-ID], [co2-ID], [occupancy-ID] and [status-ID]. *)
Record sensor_card : Type := {
  card_sensor_id : string;
  card_name : string;
  card_values : option card_body
}.

(** A child of [#buildingMap]. *)
Record sensor_marker : Type := {
  marker_x : JS.value;
  marker_y : JS.value;
  marker_title : string;
  marker_number : nat;
  marker_target : string
}.

Record status_element : Type := {
  className : string;
  innerHTML : string
}.

Inductive indicator : Type :=
| LiveConnection
| Disconnected.

Inductive message : Type :=
| Plain (s : string)
| NewAlertMessage (severity : string) (msg : string). (* severity lower-cased *)

Record notification : Type := {
  note_message : message;
  note_type : string
}.

Record document : Type := {
  sensorsContainer : option (list sensor_card);
  buildingMap : option (list sensor_marker);
  systemStatus : option status_element;
  realtimeIndicator : option indicator;
  notifications : list notification
}.

(** *** Bulk payloads and alerts *)

Record coordinates : Type := {
  coord_x : JS.value;
  coord_y : JS.value
}.

Record sensor_info : Type := {
  sensor_id : string;
  name : string;
  sensor_coordinates : option coordinates;
  latest_data : option sensor_data
}.

Record alert : Type := {
  alert_id : Z;
  severity : option string;
  alert_message : string
}.

(** The [initial_data] payload; [None] is a field that is absent. *)
Record initial_data : Type := {
  id_sensors : option (list sensor_info);
  id_system_status : option string;
  id_alerts : option (list alert)
}.

(** The parsed body of an API response. *)
Record response (A : Type) : Type := {
  success : bool;
  response_data : A
}.

Inductive request : Type :=
| FetchSensors      (* fetch('/api/sensors') *)
| FetchAlerts.      (* fetch('/api/alerts') *)

(** *** The dashboard object *)

Record dashboard : Type := {
  sensorsData : series_store;
  isConnected : bool;
  charts : charts_t;
  page : document;
  requests : list request;     (* fetches issued so far, oldest first *)
  alerts : list alert          (* the list kept by [updateAlerts] *)
}.

Definition with_sensorsData (s : series_store) (d : dashboard) : dashboard :=
  {| sensorsData := s; isConnected := isConnected d; charts := charts d;
     page := page d; requests := requests d; alerts := alerts d |}.

Definition with_isConnected (b : bool) (d : dashboard) : dashboard :=
  {| sensorsData := sensorsData d; isConnected := b; charts := charts d;
     page := page d; requests := requests d; alerts := alerts d |}.

Definition with_charts (c : charts_t) (d : dashboard) : dashboard :=
  {| sensorsData := sensorsData d; isConnected := isConnected d; charts := c;
     page := page d; requests := requests d; alerts := alerts d |}.

Definition with_page (p : document) (d : dashboard) : dashboard :=
  {| sensorsData := sensorsData d; isConnected := isConnected d;
     charts := charts d; page := p; requests := requests d;
     alerts := alerts d |}.

Definition with_requests (r : list request) (d : dashboard) : dashboard :=
  {| sensorsData := sensorsData d; isConnected := isConnected d;
     charts := charts d; page := page d; requests := r; alerts := alerts d |}.

Definition with_alerts (a : list alert) (d : dashboard) : dashboard :=
  {| sensorsData := sensorsData d; isConnected := isConnected d;
     charts := charts d; page := page d; requests := requests d;
     alerts := a |}.

(* ===================================================================== *)
(** ** Effects: state and exceptions *)
(* ===================================================================== *)

Inductive outcome (A : Type) : Type :=
| Returned (a : A)
| Threw (e : JS.exn).
Arguments Threw {A}.

(** A method body: it returns or throws, and yields the object as it left
    it either way. *)
Definition M (A : Type) : Type := dashboard -> outcome A * dashboard.

Definition ret {A} (a : A) : M A := fun d => (Returned a, d).

Definition throw {A} (e : JS.exn) : M A := fun d => (Threw e, d).

Definition bind {A B} (c : M A) (k : A -> M B) : M B :=
  fun d =>
    match c d with
    | (Returned a, d') => k a d'
    | (Threw e, d') => (Threw e, d')
    end.

(** [try { c } catch (error) { h }]. *)
Definition try_catch {A} (c : M A) (h : JS.exn -> M A) : M A :=
  fun d =>
    match c d with
    | (Returned a, d') => (Returned a, d')
    | (Threw e, d') => h e d'
    end.

Definition gets {A} (f : dashboard -> A) : M A := fun d => (Returned (f d), d).

Definition modify (f : dashboard -> dashboard) : M unit :=
  fun d => (Returned tt, f d).

Declare Scope js_scope.
Delimit Scope js_scope with js.
Notation "x <- c ;; k" := (bind c (fun x => k))
  (at level 61, c at next level, right associativity) : js_scope.
Notation "c ;; k" := (bind c (fun _ => k))
  (at level 61, right associativity) : js_scope.
Local Open Scope js_scope.

Definition when (b : bool) (c : M unit) : M unit := if b then c else ret tt.

(** [l.forEach(f)] for a body that may throw. *)
Fixpoint forEach {A} (f : A -> M unit) (l : list A) : M unit :=
  match l with
  | [] => ret tt
  | a :: l' => f a ;; forEach f l'
  end.

(** [l.map((x, index) => f x index)]. *)
Fixpoint map_index {A B} (f : A -> nat -> B) (i : nat) (l : list A) : list B :=
  match l with
  | [] => []
  | a :: l' => f a i :: map_index f (S i) l'
  end.

Definition state_after {A} (r : outcome A * dashboard) : dashboard := snd r.

Definition threw {A} (r : outcome A * dashboard) : bool :=
  match fst r with Threw _ => true | Returned _ => false end.

(* ===================================================================== *)
(** ** Per-sensor series store (handleRealtimeData, lines 247-273) *)
(* ===================================================================== *)

(** Lines 252-254: [if (!this.sensorsData[sensorId])
    this.sensorsData[sensorId] = []]. A buffer and a prototype member are
    both truthy. *)
Definition create_buffer (sensorId : string) : M unit :=
  store <- gets sensorsData ;;
  match JS.get store sensorId with
  | JS.Absent => modify (with_sensorsData (JS.set store sensorId []))
  | _ => ret tt
  end.

(** Lines 256-261, the object literal: [sensorData.data.temperature]
    cannot be read when [sensorData] or [sensorData.data] is undefined or
    null ([None]). *)
Definition reading_literal (data : realtime_event) : option reading :=
  match rt_data data with
  | None => None
  | Some sensorData =>
      match sd_data sensorData with
      | None => None
      | Some m =>
          Some {| timestamp := rt_timestamp data;
                  temperature := m_temperature m;
                  humidity := m_humidity m;
                  co2 := m_co2 m |}
      end
  end.

Definition new_reading (data : realtime_event) : M reading :=
  match reading_literal data with
  | Some r => ret r
  | None => throw JS.TypeError
  end.

(** Line 256, the call: [this.sensorsData[sensorId].push(r)]. A prototype
    member has no [push]. *)
Definition push (sensorId : string) (r : reading) : M unit :=
  store <- gets sensorsData ;;
  match JS.get store sensorId with
  | JS.Own buffer =>
      modify (with_sensorsData (JS.set store sensorId (buffer ++ [r])))
  | JS.Inherited => throw JS.TypeError
  | JS.Absent => throw JS.TypeError
  end.

(** Lines 263-266: keep only the last 50 points. *)
Definition trim (sensorId : string) : M unit :=
  store <- gets sensorsData ;;
  match JS.get store sensorId with
  | JS.Own buffer =>
      when (50 <? List.length buffer)%nat
        (modify (with_sensorsData
                   (JS.set store sensorId (JS.slice_last 50 buffer))))
  | JS.Inherited => ret tt
  | JS.Absent => throw JS.TypeError
  end.

(** The sensor's buffer, an absent one read as empty. *)
Definition buffer_of (store : series_store) (sensorId : string) : list reading :=
  match JS.own store sensorId with
  | Some buffer => buffer
  | None => []
  end.

(* ===================================================================== *)
(** ** Time alignment (updateCharts, lines 491-510) *)
(* ===================================================================== *)

Fixpoint insert_ascending (t : Z) (l : list Z) : list Z :=
  match l with
  | [] => [t]
  | u :: l' => if t <=? u then t :: u :: l' else u :: insert_ascending t l'
  end.

(** [.sort((a, b) => a - b)] on dates, as time values. *)
Definition sort_ascending (l : list Z) : list Z :=
  fold_right insert_ascending [] l.

(** [[...new Set(l)]]: the first occurrence of each value, in order. *)
Fixpoint Set_from (seen : list Z) (l : list Z) : list Z :=
  match l with
  | [] => []
  | t :: l' =>
      if existsb (Z.eqb t) seen then Set_from seen l'
      else t :: Set_from (t :: seen) l'
  end.

(** Lines 495-498. *)
Definition allTimestamps (store : series_store) : list Z :=
  sort_ascending (map timestamp (List.concat (JS.values store))).

(** Lines 500-502. *)
Definition uniqueTimestamps (store : series_store) : list Z :=
  JS.slice_last 20 (Set_from [] (allTimestamps store)).

(* ===================================================================== *)
(** ** Chart dataset builder (lines 515-583) *)
(* ===================================================================== *)

(** Lines 23-26. *)
Definition sensorColors : list string :=
  [ "#00d4ff"; "#0099cc"; "#66e0ff"; "#33ccff";
    "#009bff"; "#4dd8ff"; "#1ac6ff"; "#80e8ff" ].

(** [this.sensorColors[index % this.sensorColors.length]]. *)
Definition sensorColor (index : nat) : string :=
  nth (index mod List.length sensorColors)%nat sensorColors "undefined".

Definition sensorNames : JS.object string :=
  [ ("hvac_office_a1", "Office A1");
    ("hvac_office_a2", "Office A2");
    ("hvac_meeting_room", "Meeting Room");
    ("hvac_main_corridor", "Corridor");
    ("hvac_kitchen", "Kitchen");
    ("hvac_reception", "Reception");
    ("hvac_restroom", "Restroom") ].

(** Lines 634-645: [sensorNames[sensorId] || sensorId]. *)
Definition getSensorName (sensorId : string) : name_value :=
  match JS.get sensorNames sensorId with
  | JS.Own n => if String.eqb n "" then NameString sensorId else NameString n
  | JS.Inherited => NameMember sensorId
  | JS.Absent => NameString sensorId
  end.

(** [timestamps.some(t => t.getTime() === d.timestamp.getTime())]. *)
Definition on_timeline (timestamps : list Z) (d : reading) : bool :=
  existsb (fun t => t =? timestamp d) timestamps.

(** Lines 518-533, the dataset of one sensor. *)
Definition temperature_dataset (store : series_store) (timestamps : list Z)
  (sensorId : string) (index : nat) : dataset :=
  let data :=
    map temperature (filter (on_timeline timestamps) (buffer_of store sensorId)) in
  {| label := name_text (getSensorName sensorId);
     data := data;
     borderColor := sensorColor index;
     backgroundColor := (sensorColor index ++ "20")%string;
     yAxisID := None;
     tension := (4, 10);
     fill := false;
     borderDash := None;
     pointRadius := 3;
     pointHoverRadius := Some 6 |}.

Definition temperature_datasets (store : series_store) (timestamps : list Z)
  : list dataset :=
  map_index (temperature_dataset store timestamps) 0 (JS.keys store).

(** Lines 556-565. *)
Definition humidity_dataset (store : series_store) (timestamps : list Z)
  (sensorId : string) (index : nat) : dataset :=
  let sensorDataPoints :=
    filter (on_timeline timestamps) (buffer_of store sensorId) in
  {| label := template (getSensorName sensorId) " - Humidity";
     data := map humidity sensorDataPoints;
     borderColor := sensorColor index;
     backgroundColor := (sensorColor index ++ "20")%string;
     yAxisID := Some "y";
     tension := (4, 10);
     fill := false;
     borderDash := None;
     pointRadius := 3;
     pointHoverRadius := None |}.

(** Lines 567-577. *)
Definition co2_dataset (store : series_store) (timestamps : list Z)
  (sensorId : string) (index : nat) : dataset :=
  let sensorDataPoints :=
    filter (on_timeline timestamps) (buffer_of store sensorId) in
  {| label := template (getSensorName sensorId) " - CO₂";
     data := map co2 sensorDataPoints;
     borderColor := sensorColor index;
     backgroundColor := (sensorColor index ++ "40")%string;
     yAxisID := Some "y1";
     tension := (4, 10);
     fill := false;
     borderDash := Some [5; 5];
     pointRadius := 3;
     pointHoverRadius := None |}.

(** Lines 546-578: the loop pushes one dataset on each of the two arrays
    per sensor. *)
Fixpoint humidity_loop (store : series_store) (timestamps : list Z)
  (index : nat) (sensorIds : list string)
  (humidityDatasets co2Datasets : list dataset) : list dataset * list dataset :=
  match sensorIds with
  | [] => (humidityDatasets, co2Datasets)
  | sensorId :: rest =>
      humidity_loop store timestamps (S index) rest
        (humidityDatasets ++ [humidity_dataset store timestamps sensorId index])
        (co2Datasets ++ [co2_dataset store timestamps sensorId index])
  end.

(** Line 581: [[...humidityDatasets, ...co2Datasets]]. *)
Definition humidity_datasets (store : series_store) (timestamps : list Z)
  : list dataset :=
  let '(humidityDatasets, co2Datasets) :=
    humidity_loop store timestamps 0 (JS.keys store) [] [] in
  humidityDatasets ++ co2Datasets.

(** Lines 515-538. *)
Definition updateTemperatureChart (labels : list time_label)
  (timestamps : list Z) : M unit :=
  c <- gets charts ;;
  match charts_temperature c with
  | None => ret tt
  | Some _ =>
      store <- gets sensorsData ;;
      let datasets := temperature_datasets store timestamps in
      modify (with_charts
                {| charts_temperature :=
                     Some {| labels := labels; datasets := datasets |};
                   charts_humidity := charts_humidity c |})
  end.

(** Lines 543-583. *)
Definition updateHumidityChart (labels : list time_label)
  (timestamps : list Z) : M unit :=
  c <- gets charts ;;
  match charts_humidity c with
  | None => ret tt
  | Some _ =>
      store <- gets sensorsData ;;
      modify (with_charts
                {| charts_temperature := charts_temperature c;
                   charts_humidity :=
                     Some {| labels := labels;
                             datasets := humidity_datasets store timestamps |} |})
  end.

(** Lines 491-510. *)
Definition updateCharts : M unit :=
  store <- gets sensorsData ;;
  if (List.length (JS.keys store) =? 0)%nat then ret tt
  else
    let uniqueTimestamps := uniqueTimestamps store in
    let labels := map LocaleTime uniqueTimestamps in
    updateTemperatureChart labels uniqueTimestamps ;;
    updateHumidityChart labels uniqueTimestamps.

(* ===================================================================== *)
(** ** The page: cards, map, status, notifications *)
(* ===================================================================== *)

Definition with_sensorsContainer (c : option (list sensor_card)) (p : document)
  : document :=
  {| sensorsContainer := c; buildingMap := buildingMap p;
     systemStatus := systemStatus p; realtimeIndicator := realtimeIndicator p;
     notifications := notifications p |}.

Definition with_buildingMap (m : option (list sensor_marker)) (p : document)
  : document :=
  {| sensorsContainer := sensorsContainer p; buildingMap := m;
     systemStatus := systemStatus p; realtimeIndicator := realtimeIndicator p;
     notifications := notifications p |}.

Definition with_systemStatus (s : option status_element) (p : document)
  : document :=
  {| sensorsContainer := sensorsContainer p; buildingMap := buildingMap p;
     systemStatus := s; realtimeIndicator := realtimeIndicator p;
     notifications := notifications p |}.

Definition with_realtimeIndicator (i : option indicator) (p : document)
  : document :=
  {| sensorsContainer := sensorsContainer p; buildingMap := buildingMap p;
     systemStatus := systemStatus p; realtimeIndicator := i;
     notifications := notifications p |}.

Definition with_notifications (n : list notification) (p : document)
  : document :=
  {| sensorsContainer := sensorsContainer p; buildingMap := buildingMap p;
     systemStatus := systemStatus p; realtimeIndicator := realtimeIndicator p;
     notifications := n |}.

Definition modify_page (f : document -> document) : M unit :=
  modify (fun d => with_page (f (page d)) d).

(** Lines 692-726. The element is appended to the body; its removal after
    five seconds belongs to the host's timers and is not modelled. *)
Definition showNotification (msg : message) (type : string) : M unit :=
  modify_page (fun p =>
    with_notifications
      (notifications p ++ [{| note_message := msg; note_type := type |}]) p).

(** Lines 588-599. *)
Definition updateConnectionStatus (connected : bool) : M unit :=
  modify_page (fun p =>
    match realtimeIndicator p with
    | None => p
    | Some _ =>
        with_realtimeIndicator
          (Some (if connected then LiveConnection else Disconnected)) p
    end).

(** *** System status (lines 604-629) *)

Record status_config : Type := {
  cfg_text : string;
  cfg_class : string;
  cfg_icon : string
}.

Definition statusConfigs : JS.object status_config :=
  [ ("NORMAL",
     {| cfg_text := "All Systems Operating Normally";
        cfg_class := "system-status status-normal";
        cfg_icon := "fa-check-circle" |});
    ("WARNING",
     {| cfg_text := "Minor Issues Detected";
        cfg_class := "system-status status-warning";
        cfg_icon := "fa-exclamation-triangle" |});
    ("CRITICAL",
     {| cfg_text := "Critical Issues Require Attention";
        cfg_class := "system-status status-critical";
        cfg_icon := "fa-exclamation-circle" |}) ].

(** A property read from [config]: a prototype member has no [text],
    [class] or [icon], and [undefined] is written as the string
    "undefined". *)
Definition config_field (f : status_config -> string)
  (config : JS.lookup status_config) : string :=
  match config with
  | JS.Own c => f c
  | JS.Inherited => "undefined"
  | JS.Absent => "undefined"
  end.

Definition double_quote : string := String (ascii_of_nat 34) EmptyString.

(** The markup of line 628. *)
Definition status_markup (icon txt : string) : string :=
  ("<i class=" ++ double_quote ++ "fas " ++ icon ++ " me-2" ++ double_quote
   ++ "></i>" ++ txt)%string.

(** The element as line 627-628 leave it for a configuration. *)
Definition status_view (config : JS.lookup status_config) : status_element :=
  {| className := config_field cfg_class config;
     innerHTML :=
       status_markup (config_field cfg_icon config)
                     (config_field cfg_text config) |}.

(** Line 626: [statusConfigs[status] || statusConfigs['NORMAL']]. *)
Definition select_config (status : string) : JS.lookup status_config :=
  match JS.get statusConfigs status with
  | JS.Absent => JS.get statusConfigs "NORMAL"
  | found => found
  end.

Definition updateSystemStatus (status : string) : M unit :=
  modify_page (fun p =>
    match systemStatus p with
    | None => p
    | Some _ => with_systemStatus (Some (status_view (select_config status))) p
    end).

(** Lines 295-297: [status.system_status.status]; [None] is a payload
    without [system_status]. *)
Definition handleSystemStatusUpdate (system_status : option string) : M unit :=
  match system_status with
  | None => throw JS.TypeError
  | Some status => updateSystemStatus status
  end.

(** *** Sensor cards (lines 302-332, 459-486) *)

(** Lines 320-332 with 337-421. A card with data reads
    [latestData.system_status.toLowerCase()]. *)
Definition createSensorCard (sensor : sensor_info) : M sensor_card :=
  match latest_data sensor with
  | Some {| sd_data := Some m; sd_system_status := status |} =>
      match status with
      | None => throw JS.TypeError
      | Some s =>
          ret {| card_sensor_id := sensor_id sensor;
                 card_name := name sensor;
                 card_values :=
                   Some {| shown := m; status_text_of := Some s;
                           status_class_of := s |} |}
      end
  | _ =>
      ret {| card_sensor_id := sensor_id sensor;
             card_name := name sensor;
             card_values := None |}
  end.

Definition appendChild_card (c : sensor_card) : M unit :=
  modify_page (fun p =>
    with_sensorsContainer
      (option_map (fun cs => cs ++ [c]) (sensorsContainer p)) p).

(** Lines 302-315; the entrance animation only touches styles. *)
Definition renderSensors (sensors : list sensor_info) : M unit :=
  container <- gets (fun d => sensorsContainer (page d)) ;;
  match container with
  | None => ret tt
  | Some _ =>
      modify_page (with_sensorsContainer (Some [])) ;;
      forEach (fun sensor =>
                 sensorCard <- createSensorCard sensor ;;
                 appendChild_card sensorCard) sensors
  end.

(** Lines 441-454. *)
Definition createSensorMarker (sensor : sensor_info) (index : nat)
  : M sensor_marker :=
  match sensor_coordinates sensor with
  | None => throw JS.TypeError
  | Some c =>
      ret {| marker_x := coord_x c; marker_y := coord_y c;
             marker_title := name sensor;
             marker_number := (index + 1)%nat;
             marker_target := sensor_id sensor |}
  end.

Definition appendChild_marker (m : sensor_marker) : M unit :=
  modify_page (fun p =>
    with_buildingMap (option_map (fun ms => ms ++ [m]) (buildingMap p)) p).

Fixpoint forEach_index {A} (f : A -> nat -> M unit) (i : nat) (l : list A)
  : M unit :=
  match l with
  | [] => ret tt
  | a :: l' => f a i ;; forEach_index f (S i) l'
  end.

(** Lines 426-436. *)
Definition renderBuildingMap (sensors : list sensor_info) : M unit :=
  mapContainer <- gets (fun d => buildingMap (page d)) ;;
  match mapContainer with
  | None => ret tt
  | Some _ =>
      modify_page (with_buildingMap (Some [])) ;;
      forEach_index (fun sensor index =>
                       marker <- createSensorMarker sensor index ;;
                       appendChild_marker marker) 0 sensors
  end.

(** The first card that owns the elements [temp-ID] ... [status-ID]. *)
Definition owns_elements (sensorId : string) (c : sensor_card) : bool :=
  match card_values c with
  | Some _ => String.eqb (card_sensor_id c) sensorId
  | None => false
  end.

Fixpoint alter_card (sensorId : string) (f : card_body -> card_body)
  (cards : list sensor_card) : list sensor_card :=
  match cards with
  | [] => []
  | c :: rest =>
      if owns_elements sensorId c
      then {| card_sensor_id := card_sensor_id c; card_name := card_name c;
              card_values := option_map f (card_values c) |} :: rest
      else c :: alter_card sensorId f rest
  end.

Definition alter_elements (sensorId : string) (f : card_body -> card_body)
  : M unit :=
  modify_page (fun p =>
    with_sensorsContainer
      (option_map (alter_card sensorId f) (sensorsContainer p)) p).

Definition elements_exist (sensorId : string) (d : dashboard) : bool :=
  match sensorsContainer (page d) with
  | Some cards => existsb (owns_elements sensorId) cards
  | None => false
  end.

(** Lines 459-486. The write that [animateValueChange] defers by 100 ms is
    made at once. *)
Definition updateSensorCard (sensorId : string) (sensorData : option sensor_data)
  : M unit :=
  found <- gets (elements_exist sensorId) ;;
  if found then
    match sensorData with
    | None => throw JS.TypeError
    | Some sd =>
        match sd_data sd with
        | None => throw JS.TypeError
        | Some m =>
            alter_elements sensorId (fun b =>
              {| shown := m; status_text_of := status_text_of b;
                 status_class_of := status_class_of b |}) ;;
            let status := sd_system_status sd in
            alter_elements sensorId (fun b =>
              {| shown := shown b; status_text_of := status;
                 status_class_of := status_class_of b |}) ;;
            match status with
            | None => throw JS.TypeError
            | Some s =>
                alter_elements sensorId (fun b =>
                  {| shown := shown b; status_text_of := status_text_of b;
                     status_class_of := s |})
            end
        end
    end
  else ret tt.

(** Lines 251-266: store the reading, keep only the last 50 points. *)
Definition store_reading (data : realtime_event) : M unit :=
  let sensorId := rt_sensor_id data in
  create_buffer sensorId ;;
  r <- new_reading data ;;
  push sensorId r ;;
  trim sensorId.

(** Lines 247-273. *)
Definition handleRealtimeData (data : realtime_event) : M unit :=
  let sensorId := rt_sensor_id data in
  let sensorData := rt_data data in
  store_reading data ;;
  updateSensorCard sensorId sensorData ;;
  updateCharts.

(* ===================================================================== *)
(** ** Alerts *)
(* ===================================================================== *)

(** Modelled from the spec: [updateAlerts], which the class calls (lines
    217 and 240) but the source does not define. The spec's glossary has a
    resync as the full replacement of in-memory state from a bulk fetch:
    the alert list becomes the payload's list. *)
Definition updateAlerts (a : list alert) : M unit :=
  modify (with_alerts a).

(** Modelled from the spec: [addNewAlert], which the class calls (line 279)
    but the source does not define. The spec (4.4) has new alerts always
    prepended, most recent first. *)
Definition addNewAlert (a : alert) : M unit :=
  modify (fun d => with_alerts (a :: alerts d) d).

(** Lines 278-290; the pulse on the counter only touches styles. *)
Definition handleNewAlert (a : alert) : M unit :=
  addNewAlert a ;;
  match severity a with
  | None => throw JS.TypeError
  | Some s => showNotification (NewAlertMessage s (alert_message a)) "warning"
  end.

(* ===================================================================== *)
(** ** Bulk resync (lines 201-242) *)
(* ===================================================================== *)

(** Lines 229-242. An array is truthy, the empty string is not. *)
Definition handleInitialData (data : initial_data) : M unit :=
  match id_sensors data with
  | Some sensors => renderSensors sensors ;; renderBuildingMap sensors
  | None => ret tt
  end ;;
  match id_system_status data with
  | Some status =>
      if String.eqb status "" then ret tt else updateSystemStatus status
  | None => ret tt
  end ;;
  match id_alerts data with
  | Some a => updateAlerts a
  | None => ret tt
  end.

(** Lines 203-206: the two fetches leave at once. *)
Definition loadInitialData : M unit :=
  modify (fun d => with_requests (requests d ++ [FetchSensors; FetchAlerts]) d).

(** What the two fetches settle to: a rejection or an unreadable body, or
    the two parsed bodies. *)
Inductive fetched : Type :=
| Rejected
| Bodies (sensorsData : response (list sensor_info))
         (alertsData : response (list alert)).

(** Lines 208-223: the rest of [loadInitialData], run when the fetches
    settle. *)
Definition loadInitialData_settled (f : fetched) : M unit :=
  try_catch
    match f with
    | Rejected => throw JS.TypeError
    | Bodies sensorsData alertsData =>
        when (success sensorsData)
          (renderSensors (response_data sensorsData) ;;
           renderBuildingMap (response_data sensorsData)) ;;
        when (success alertsData) (updateAlerts (response_data alertsData))
    end
    (fun _ => showNotification (Plain "Failed to load initial data") "error").

(* ===================================================================== *)
(** ** Liveness (lines 70-80, 773-780) and the event feed *)
(* ===================================================================== *)

(** Lines 70-74. *)
Definition on_connect : M unit :=
  modify (with_isConnected true) ;;
  updateConnectionStatus true.

(** Lines 76-80. *)
Definition on_disconnect : M unit :=
  modify (with_isConnected false) ;;
  updateConnectionStatus false.

(** Lines 774-779, the callback. *)
Definition healthCheck : M unit :=
  connected <- gets isConnected ;;
  if negb connected then loadInitialData else ret tt.

Record interval : Type := {
  callback : M unit;
  delay_ms : Z
}.

(** Lines 773-780: [setInterval(callback, 30000)]. *)
Definition startHealthCheck : interval :=
  {| callback := healthCheck; delay_ms := 30000 |}.

(** What the host delivers to the dashboard, one at a time. *)
Inductive event : Type :=
| Connect
| Disconnect
| InitialData (data : initial_data)
| RealtimeData (data : realtime_event)
| NewAlert (a : alert)
| SystemStatusUpdate (system_status : option string)
| HealthCheckTick                    (* the interval of [startHealthCheck] *)
| FetchesSettled (f : fetched).      (* a [loadInitialData] resumes *)

Definition dispatch (e : event) : M unit :=
  match e with
  | Connect => on_connect
  | Disconnect => on_disconnect
  | InitialData data => handleInitialData data
  | RealtimeData data => handleRealtimeData data
  | NewAlert a => handleNewAlert a
  | SystemStatusUpdate s => handleSystemStatusUpdate s
  | HealthCheckTick => callback startHealthCheck
  | FetchesSettled f => loadInitialData_settled f
  end.

(** An exception that leaves a handler is reported by the host; the next
    event is delivered to the object as the handler left it. *)
Fixpoint run (events : list event) (d : dashboard) : dashboard :=
  match events with
  | [] => d
  | e :: rest => run rest (state_after (dispatch e d))
  end.

(** The monitor's state as the spec names it. *)
Inductive liveness : Type :=
| LIVE
| STALE.

Definition liveness_of (d : dashboard) : liveness :=
  if isConnected d then LIVE else STALE.

(** Lines 7-42: the object after the constructor and [init], on a page [p]
    with or without the two canvases. *)
Definition constructed (p : document) (temperatureCanvas humidityCanvas : bool)
  : dashboard :=
  {| sensorsData := [];
     isConnected := false;
     charts :=
       {| charts_temperature :=
            if temperatureCanvas
            then Some {| labels := []; datasets := [] |} else None;
          charts_humidity :=
            if humidityCanvas
            then Some {| labels := []; datasets := [] |} else None |};
     page := p;
     requests := [FetchSensors; FetchAlerts];
     alerts := [] |}.

(* ===================================================================== *)
(** ** Notions the properties are stated with *)
(* ===================================================================== *)

(** A page with none of the elements the dashboard looks for. *)
Definition blank_page : document :=
  {| sensorsContainer := None; buildingMap := None; systemStatus := None;
     realtimeIndicator := None; notifications := [] |}.

(** A well-formed [realtime_data] event reporting [v] for every metric. *)
Definition reading_event (sensorId : string) (t v : Z) : event :=
  RealtimeData
    {| rt_sensor_id := sensorId;
       rt_timestamp := t;
       rt_data :=
         Some {| sd_data :=
                   Some {| m_temperature := JS.Num v; m_humidity := JS.Num v;
                           m_co2 := JS.Num v; m_occupancy := JS.Num 0 |};
                 sd_system_status := Some "NORMAL" |} |}.


(** The order in which the sensors were first seen: the creation order of
    the store's properties. *)
Definition first_seen (store : series_store) : list string := map fst store.

(** No sensor id is an array index. *)
Definition plain_ids (store : series_store) : bool :=
  forallb (fun k => negb (JS.is_index k)) (first_seen store).

(** The readings a feed inserts for a sensor, in arrival order: those of
    its reading events whose object literal can be built. An id that names
    a member of [Object.prototype] never gets a buffer. *)
Fixpoint inserted (sensorId : string) (events : list event) : list reading :=
  match events with
  | [] => []
  | RealtimeData data :: rest =>
      if String.eqb (rt_sensor_id data) sensorId && negb (JS.inherited sensorId)
      then match reading_literal data with
           | Some r => r :: inserted sensorId rest
           | None => inserted sensorId rest
           end
      else inserted sensorId rest
  | _ :: rest => inserted sensorId rest
  end.

(** An instant occurs in some sensor's buffer. *)
Definition stored_instant (store : series_store) (t : Z) : Prop :=
  exists sensorId buffer d,
    In (sensorId, buffer) store /\ In d buffer /\ timestamp d = t.

(** The sensor's reading at an instant, if it has one. *)
Definition reading_at (buffer : list reading) (t : Z) : option reading :=
  find (fun d => timestamp d =? t) buffer.

(** The projection as the specification words it: one slot per timeline
    instant, the reading's value or the absent marker [null]. *)
Definition projection (metric : reading -> JS.value) (buffer : list reading)
  (timeline : list Z) : list JS.value :=
  map (fun t => match reading_at buffer t with
                | Some d => metric d
                | None => JS.Null
                end) timeline.

(** The same with the absent slots left out. *)
Definition present_values (metric : reading -> JS.value)
  (buffer : list reading) (timeline : list Z) : list JS.value :=
  flat_map (fun t => match reading_at buffer t with
                     | Some d => [metric d]
                     | None => []
                     end) timeline.

(** The element showing the NORMAL configuration. *)
Definition normal_view : status_element :=
  {| className := "system-status status-normal";
     innerHTML :=
       status_markup "fa-check-circle" "All Systems Operating Normally" |}.

(** The instants [start], [start + 1], ... ([count] of them). *)
Definition seq_Z (start : Z) (count : nat) : list Z :=
  map Z.of_nat (seq (Z.to_nat start) count).

(** Ascending instants, with and without repetition allowed. *)
Definition ascending (l : list Z) : Prop := StronglySorted Z.le l.

Definition strictly_ascending (l : list Z) : Prop := StronglySorted Z.lt l.



(** The elements a resync writes into are present or not. *)
Definition has_container (d : dashboard) : bool :=
  match sensorsContainer (page d) with Some _ => true | None => false end.

Definition has_map (d : dashboard) : bool :=
  match buildingMap (page d) with Some _ => true | None => false end.

(** Which of the two containers a resync renders into are on the page. *)
Definition presence (d : dashboard) : bool * bool := (has_container d, has_map d).

(** A method keeps the containers present or absent as they were, and its
    outcome depends on the object through their presence alone. *)
Definition presence_determined {A} (c : M A) : Prop :=
  (forall d, presence (state_after (c d)) = presence d)
  /\ (forall d d', presence d = presence d' -> fst (c d) = fst (c d')).

(** A method leaves a component [f] of the object alone. *)
Definition frames {A X} (f : dashboard -> X) (c : M A) : Prop :=
  forall d, f (state_after (c d)) = f d.

(** The store never owns a key that names a prototype member, and no
    buffer is longer than the cap. *)
Definition store_ok (store : series_store) : Prop :=
  forall sensorId,
    (JS.inherited sensorId = true -> JS.own store sensorId = None)
    /\ (List.length (buffer_of store sensorId) <= 50)%nat.

(* ===================================================================== *)
(** ** Notions for the page and the feed *)
(* ===================================================================== *)

(** The card [createSensorCard] returns for a sensor, [None] when it
    raises; the method does not read the object. *)
Definition card_of (sensor : sensor_info) : option sensor_card :=
  match fst (createSensorCard sensor (constructed blank_page false false)) with
  | Returned c => Some c
  | Threw _ => None
  end.

(** The cards appended before the first sensor whose card cannot be
    made. *)
Fixpoint cards_built (sensors : list sensor_info) : list sensor_card :=
  match sensors with
  | [] => []
  | sensor :: rest =>
      match card_of sensor with
      | Some c => c :: cards_built rest
      | None => []
      end
  end.

Definition all_cards_build (sensors : list sensor_info) : bool :=
  forallb (fun sensor => match card_of sensor with
                         | Some _ => true
                         | None => false
                         end) sensors.

(** The marker [createSensorMarker] returns, [None] when it raises. *)
Definition marker_of (sensor : sensor_info) (index : nat)
  : option sensor_marker :=
  match fst (createSensorMarker sensor index
               (constructed blank_page false false)) with
  | Returned m => Some m
  | Threw _ => None
  end.

Fixpoint markers_built (index : nat) (sensors : list sensor_info)
  : list sensor_marker :=
  match sensors with
  | [] => []
  | sensor :: rest =>
      match marker_of sensor index with
      | Some m => m :: markers_built (S index) rest
      | None => []
      end
  end.

Definition all_markers_build (sensors : list sensor_info) : bool :=
  forallb (fun sensor => match sensor_coordinates sensor with
                         | Some _ => true
                         | None => false
                         end) sensors.

(** The connection flag after a feed: the last connect or disconnect
    decides. *)
Fixpoint connection_after (connected : bool) (events : list event) : bool :=
  match events with
  | [] => connected
  | Connect :: rest => connection_after true rest
  | Disconnect :: rest => connection_after false rest
  | _ :: rest => connection_after connected rest
  end.


(** The indicator, when the page has one, shows the connection flag. *)
Definition indicator_agrees (d : dashboard) : Prop :=
  match realtimeIndicator (page d) with
  | Some i => i = if isConnected d then LiveConnection else Disconnected
  | None => True
  end.

(** A reading event that carries everything the handler reads. *)
Definition complete_event (ev : realtime_event) : bool :=
  match rt_data ev with
  | Some {| sd_data := Some _; sd_system_status := Some _ |} => true
  | _ => false
  end.

(** The readings a feed delivers for a sensor, in arrival order: the
    instant and the measurements of each reading event that names the
    sensor and carries measurements. *)
Fixpoint delivered (sensorId : string) (events : list event) : list reading :=
  match events with
  | [] => []
  | RealtimeData ev :: rest =>
      match rt_data ev with
      | Some {| sd_data := Some m |} =>
          if String.eqb (rt_sensor_id ev) sensorId
          then {| timestamp := rt_timestamp ev;
                  temperature := m_temperature m;
                  humidity := m_humidity m;
                  co2 := m_co2 m |} :: delivered sensorId rest
          else delivered sensorId rest
      | _ => delivered sensorId rest
      end
  | _ :: rest => delivered sensorId rest
  end.

(** Sample payload entries: a sensor with data, one without, one whose
    data has no status, one without coordinates. *)
Definition sample_measurements : measurements :=
  {| m_temperature := JS.Num 21; m_humidity := JS.Num 40;
     m_co2 := JS.Num 600; m_occupancy := JS.Num 3 |}.

Definition kitchen_sensor : sensor_info :=
  {| sensor_id := "hvac_kitchen"; name := "Kitchen";
     sensor_coordinates := Some {| coord_x := JS.Num 10; coord_y := JS.Num 5 |};
     latest_data := Some {| sd_data := Some sample_measurements;
                            sd_system_status := Some "NORMAL" |} |}.

Definition reception_sensor : sensor_info :=
  {| sensor_id := "hvac_reception"; name := "Reception";
     sensor_coordinates := Some {| coord_x := JS.Num 2; coord_y := JS.Num 20 |};
     latest_data := None |}.

Definition statusless_sensor : sensor_info :=
  {| sensor_id := "hvac_restroom"; name := "Restroom";
     sensor_coordinates := Some {| coord_x := JS.Num 30; coord_y := JS.Num 1 |};
     latest_data := Some {| sd_data := Some sample_measurements;
                            sd_system_status := None |} |}.

Definition unplaced_sensor : sensor_info :=
  {| sensor_id := "hvac_office_a1"; name := "Office A1";
     sensor_coordinates := None;
     latest_data := None |}.

(** A page with all the elements the dashboard writes into, empty. *)
Definition full_page : document :=
  {| sensorsContainer := Some [];
     buildingMap := Some [];
     systemStatus := Some {| className := ""; innerHTML := "" |};
     realtimeIndicator := Some Disconnected;
     notifications := [] |}.

(* ===================================================================== *)
(** ** The model on small inputs *)
(* ===================================================================== *)

Example array_index_canonical :
  map JS.array_index ["0"; "7"; "42"; "4294967294"]
  = [Some 0%N; Some 7%N; Some 42%N; Some 4294967294%N].
Proof. reflexivity. Qed.

Example array_index_other :
  map JS.array_index [""; "07"; "-1"; "1.5"; "4294967295"; "hvac_kitchen"]
  = [None; None; None; None; None; None].
Proof. reflexivity. Qed.

(** [Object.keys({ b: .., 10: .., a: .., 2: .. })] is [2, 10, b, a]. *)
Example keys_order :
  JS.keys [("b", 1); ("10", 2); ("a", 3); ("2", 4)] = ["2"; "10"; "b"; "a"].
Proof. reflexivity. Qed.

Example get_own_inherited_absent :
  JS.get sensorNames "hvac_kitchen" = JS.Own "Kitchen"
  /\ JS.get sensorNames "toString" = JS.Inherited
  /\ JS.get sensorNames "hvac_lobby" = JS.Absent.
Proof. repeat split. Qed.

Example slice_last_short : JS.slice_last 3 [1; 2] = [1; 2].
Proof. reflexivity. Qed.

Example slice_last_long : JS.slice_last 3 [1; 2; 3; 4; 5] = [3; 4; 5].
Proof. reflexivity. Qed.

Example timeline_of_two_buffers :
  uniqueTimestamps
    [("a", [ {| timestamp := 30; temperature := JS.Num 1;
                humidity := JS.Num 1; co2 := JS.Num 1 |};
             {| timestamp := 10; temperature := JS.Num 2;
                humidity := JS.Num 2; co2 := JS.Num 2 |} ]);
     ("b", [ {| timestamp := 10; temperature := JS.Num 3;
                humidity := JS.Num 3; co2 := JS.Num 3 |};
             {| timestamp := 20; temperature := JS.Num 4;
                humidity := JS.Num 4; co2 := JS.Num 4 |} ])]
  = [10; 20; 30].
Proof. reflexivity. Qed.

Example getSensorName_known_and_raw :
  getSensorName "hvac_main_corridor" = NameString "Corridor"
  /\ getSensorName "hvac_lobby" = NameString "hvac_lobby"
  /\ getSensorName "valueOf" = NameMember "valueOf".
Proof. repeat split. Qed.

Example status_views :
  status_view (select_config "WARNING")
  = {| className := "system-status status-warning";
       innerHTML := status_markup "fa-exclamation-triangle"
                      "Minor Issues Detected" |}
  /\ status_view (select_config "MALFUNCTION") = normal_view.
Proof. split; reflexivity. Qed.

(** The fifty-first reading of a sensor evicts the first. *)
Example fifty_one_readings :
  let feed := map (fun t => reading_event "hvac_kitchen" t 20) (seq_Z 1 51) in
  map timestamp
    (buffer_of (sensorsData (run feed (constructed blank_page true true)))
       "hvac_kitchen")
  = seq_Z 2 50.
Proof. vm_compute. reflexivity. Qed.

(* ===================================================================== *)
(** ** Plain objects: lookup after an assignment *)
(* ===================================================================== *)

Section ObjectFacts.
Context {A : Type}.
Implicit Types (o : JS.object A) (k : string) (a : A).

Lemma own_set_same o k a : JS.own (JS.set o k a) k = Some a.
Proof.
  induction o as [|[k' a'] o IH]; simpl.
  - now rewrite String.eqb_refl.
  - destruct (String.eqb k k') eqn:E; simpl; rewrite E; auto.
Qed.

Lemma own_set_other o k k' a :
  k <> k' -> JS.own (JS.set o k a) k' = JS.own o k'.
Proof.
  intros Hne. induction o as [|[k0 a0] o IH]; simpl.
  - destruct (String.eqb_spec k' k); congruence.
  - destruct (String.eqb_spec k k0) as [->|Hk]; simpl.
    + destruct (String.eqb_spec k' k0); congruence.
    + destruct (String.eqb_spec k' k0); auto.
Qed.

Lemma own_set o k k' a :
  JS.own (JS.set o k a) k' = if String.eqb k k' then Some a else JS.own o k'.
Proof.
  destruct (String.eqb_spec k k') as [->|Hne].
  - apply own_set_same.
  - now apply own_set_other.
Qed.

(** Assigning to an existing key keeps the creation order; a new key goes
    last. *)
Lemma keys_set_present o k a b :
  JS.own o k = Some b -> map fst (JS.set o k a) = map fst o.
Proof.
  induction o as [|[k' a'] o IH]; simpl; [discriminate|].
  destruct (String.eqb_spec k k') as [->|Hne]; simpl; intros H.
  - reflexivity.
  - now rewrite IH.
Qed.

Lemma keys_set_absent o k a :
  JS.own o k = None -> map fst (JS.set o k a) = map fst o ++ [k].
Proof.
  induction o as [|[k' a'] o IH]; simpl; [reflexivity|].
  destruct (String.eqb_spec k k') as [->|Hne]; simpl; intros H.
  - discriminate.
  - now rewrite IH.
Qed.

Lemma own_In o k a : JS.own o k = Some a -> In (k, a) o.
Proof.
  induction o as [|[k' a'] o IH]; simpl; [discriminate|].
  destruct (String.eqb_spec k k') as [->|Hne]; intros H.
  - left. congruence.
  - right. auto.
Qed.

Lemma own_None_not_key o k : JS.own o k = None -> ~ In k (map fst o).
Proof.
  induction o as [|[k' a'] o IH]; simpl; [tauto|].
  destruct (String.eqb_spec k k') as [->|Hne]; [discriminate|].
  intros H [Heq|Hin]; [congruence|]. now apply IH.
Qed.

End ObjectFacts.

(* ===================================================================== *)
(** ** Frame rules of the effect monad *)
(* ===================================================================== *)

Section Frames.
Context {X : Type} (f : dashboard -> X).

Lemma frames_ret {A} (a : A) : frames f (ret a).
Proof. intros d. reflexivity. Qed.

Lemma frames_throw {A} (e : JS.exn) : frames f (@throw A e).
Proof. intros d. reflexivity. Qed.

Lemma frames_gets {A} (g : dashboard -> A) : frames f (gets g).
Proof. intros d. reflexivity. Qed.

Lemma frames_bind {A B} (c : M A) (k : A -> M B) :
  frames f c -> (forall a, frames f (k a)) -> frames f (bind c k).
Proof.
  intros Hc Hk d. unfold bind, state_after.
  specialize (Hc d). unfold state_after in Hc.
  destruct (c d) as [[a|e] d']; simpl in *.
  - rewrite <- Hc. apply Hk.
  - exact Hc.
Qed.

Lemma frames_try_catch {A} (c : M A) (h : JS.exn -> M A) :
  frames f c -> (forall e, frames f (h e)) -> frames f (try_catch c h).
Proof.
  intros Hc Hh d. unfold try_catch, state_after.
  specialize (Hc d). unfold state_after in Hc.
  destruct (c d) as [[a|e] d']; simpl in *.
  - exact Hc.
  - rewrite <- Hc. apply Hh.
Qed.

Lemma frames_when (b : bool) (c : M unit) : frames f c -> frames f (when b c).
Proof. destruct b; simpl; auto using frames_ret. Qed.

Lemma frames_modify (g : dashboard -> dashboard) :
  (forall d, f (g d) = f d) -> frames f (modify g).
Proof. intros H d. apply H. Qed.

Lemma frames_forEach {A} (body : A -> M unit) (l : list A) :
  (forall a, frames f (body a)) -> frames f (forEach body l).
Proof.
  intros H. induction l; simpl; auto using frames_ret, frames_bind.
Qed.

Lemma frames_forEach_index {A} (body : A -> nat -> M unit) (l : list A) i :
  (forall a j, frames f (body a j)) -> frames f (forEach_index body i l).
Proof.
  intros H. revert i.
  induction l; simpl; intros; auto using frames_ret, frames_bind.
Qed.

End Frames.

(** What happens before a step that frames [f] decides [f]. *)
Lemma frames_after {X A B} (f : dashboard -> X) (c : M A) (k : A -> M B) d :
  (forall a, frames f (k a)) ->
  f (state_after (bind c k d)) = f (state_after (c d)).
Proof.
  intros Hk. unfold bind, state_after.
  destruct (c d) as [[a|e] d']; simpl; [apply Hk|reflexivity].
Qed.

Lemma bind_assoc {A B C} (c : M A) (k : A -> M B) (h : B -> M C) d :
  bind (bind c k) h d = bind c (fun a => bind (k a) h) d.
Proof.
  unfold bind. destruct (c d) as [[a|e] d']; reflexivity.
Qed.

Create HintDb frame.

#[local] Hint Resolve frames_ret frames_throw frames_gets frames_bind
  frames_try_catch frames_when frames_forEach frames_forEach_index : frame.

(** Writes to the page, the charts, the request log or the alert list leave
    the series store alone, and so on for each component. *)
Ltac frame_modify :=
  apply frames_modify; intros [? ? ? ? ? ?]; reflexivity.

Ltac frame :=
  repeat first
    [ progress intros
    | frame_modify
    | match goal with
      | |- frames _ (match ?x with _ => _ end) => destruct x
      | |- frames _ (if ?x then _ else _) => destruct x
      end
    | solve [eauto with frame]
    | apply frames_bind
    | apply frames_try_catch
    | apply frames_when
    | apply frames_forEach
    | apply frames_forEach_index ].

(* ===================================================================== *)
(** ** The last elements of a list *)
(* ===================================================================== *)

Section SliceFacts.
Context {A : Type}.
Implicit Types (l : list A) (n : nat).

Lemma slice_last_all n l : (List.length l <= n)%nat -> JS.slice_last n l = l.
Proof.
  intros H. unfold JS.slice_last.
  replace (List.length l - n)%nat with 0%nat by lia. reflexivity.
Qed.

Lemma slice_last_length n l :
  List.length (JS.slice_last n l) = Nat.min n (List.length l).
Proof. unfold JS.slice_last. rewrite length_skipn. lia. Qed.

Lemma slice_last_app n l l' :
  JS.slice_last n (JS.slice_last n l ++ l') = JS.slice_last n (l ++ l').
Proof.
  unfold JS.slice_last.
  rewrite !length_app, length_skipn.
  rewrite !skipn_app, length_skipn, skipn_skipn.
  f_equal.
  - f_equal. lia.
  - f_equal. lia.
Qed.

Lemma slice_last_suffix n l : exists l0, l = l0 ++ JS.slice_last n l.
Proof.
  exists (firstn (List.length l - n) l). unfold JS.slice_last.
  now rewrite firstn_skipn.
Qed.

Lemma slice_last_In n l x : In x (JS.slice_last n l) -> In x l.
Proof.
  destruct (slice_last_suffix n l) as [l0 E]. intros H.
  rewrite E. apply in_or_app. now right.
Qed.

End SliceFacts.

(* ===================================================================== *)
(** ** The series store under the event feed *)
(* ===================================================================== *)

Lemma buffer_of_set store k k' (b : list reading) :
  buffer_of (JS.set store k b) k'
  = if String.eqb k k' then b else buffer_of store k'.
Proof.
  unfold buffer_of. rewrite own_set. now destruct (String.eqb k k').
Qed.

Lemma inserted_app sensorId events events' :
  inserted sensorId (events ++ events')
  = inserted sensorId events ++ inserted sensorId events'.
Proof.
  induction events as [|e events IH]; simpl; [reflexivity|].
  destruct e as [| | |ev| | | |]; auto.
  destruct (_ && _); auto.
  destruct (reading_literal ev); simpl; now rewrite ?IH.
Qed.

Lemma trim_if (b : list reading) :
  (if (50 <? List.length b)%nat then JS.slice_last 50 b else b)
  = JS.slice_last 50 b.
Proof.
  destruct (Nat.ltb_spec 50 (List.length b)); auto.
  symmetry. apply slice_last_all. lia.
Qed.

Ltac run_step :=
  unfold store_reading, create_buffer, new_reading, push, trim, when, bind,
    gets, modify, ret, throw, state_after, JS.get; simpl.

(** One reading event, seen from the own properties of the store. *)
Lemma store_reading_own ev d k :
  JS.own (sensorsData (state_after (store_reading ev d))) k
  = let store := sensorsData d in
    let sensorId := rt_sensor_id ev in
    if String.eqb sensorId k then
      match JS.own store sensorId, reading_literal ev with
      | Some b, Some r => Some (JS.slice_last 50 (b ++ [r]))
      | Some b, None => Some b
      | None, Some r => if JS.inherited sensorId then None else Some [r]
      | None, None => if JS.inherited sensorId then None else Some []
      end
    else JS.own store k.
Proof.
  cbv zeta. run_step.
  destruct (JS.own (sensorsData d) (rt_sensor_id ev)) as [b|] eqn:Eown;
    [|destruct (JS.inherited (rt_sensor_id ev)) eqn:Ei];
    destruct (reading_literal ev) as [r|] eqn:Er; simpl;
    rewrite ?Eown, ?Ei, ?own_set_same; simpl;
    rewrite ?own_set_same; simpl;
    try match goal with
      | |- context [(50 <? ?n)%nat] => destruct (Nat.ltb_spec 50 n)
      end; simpl; rewrite ?own_set;
    destruct (String.eqb_spec (rt_sensor_id ev) k) as [<-|Hne];
    rewrite ?Eown; auto.
  now rewrite slice_last_all.
Qed.

Lemma store_reading_ok ev d :
  store_ok (sensorsData d) ->
  store_ok (sensorsData (state_after (store_reading ev d))).
Proof.
  intros Hok k. unfold buffer_of.
  rewrite store_reading_own. cbv zeta.
  destruct (Hok k) as [Hinh Hlen]. unfold buffer_of in Hlen.
  destruct (String.eqb_spec (rt_sensor_id ev) k) as [<-|Hne]; [|auto].
  destruct (JS.own (sensorsData d) (rt_sensor_id ev)) as [b|] eqn:Eown.
  - destruct (reading_literal ev) as [r|]; split; auto; try congruence.
    + intros Hi. specialize (Hinh Hi). discriminate.
    + rewrite slice_last_length. lia.
  - destruct (JS.inherited (rt_sensor_id ev)) eqn:Ei;
      destruct (reading_literal ev) as [r|]; split; simpl; auto;
      try discriminate; lia.
Qed.

(** One reading event, seen from one sensor's buffer. *)
Lemma store_reading_buffer ev d sensorId :
  store_ok (sensorsData d) ->
  buffer_of (sensorsData (state_after (store_reading ev d))) sensorId
  = JS.slice_last 50
      (buffer_of (sensorsData d) sensorId
       ++ inserted sensorId [RealtimeData ev]).
Proof.
  intros Hok. unfold buffer_of at 1. rewrite store_reading_own. cbv zeta.
  destruct (Hok sensorId) as [Hinh Hlen]. simpl inserted.
  destruct (String.eqb_spec (rt_sensor_id ev) sensorId) as [->|Hne]; simpl.
  - unfold buffer_of in *.
    destruct (JS.own (sensorsData d) sensorId) as [b|] eqn:Eown.
    + assert (Hni : JS.inherited sensorId = false).
      { destruct (JS.inherited sensorId); auto.
        specialize (Hinh eq_refl). discriminate. }
      rewrite Hni. simpl.
      destruct (reading_literal ev) as [r|]; auto.
      rewrite app_nil_r. now rewrite slice_last_all.
    + destruct (JS.inherited sensorId); simpl;
        destruct (reading_literal ev) as [r|]; reflexivity.
  - rewrite app_nil_r. now rewrite slice_last_all.
Qed.

(** *** What each handler leaves alone *)

Lemma showNotification_frames {X} (f : dashboard -> X) msg type :
  (forall p d, f (with_page p d) = f d) -> frames f (showNotification msg type).
Proof. intros H d. apply H. Qed.

Lemma modify_page_frames {X} (f : dashboard -> X) g :
  (forall p d, f (with_page p d) = f d) -> frames f (modify_page g).
Proof. intros H d. apply H. Qed.

#[local] Hint Resolve showNotification_frames modify_page_frames : frame.

Ltac frame_page :=
  unfold updateSystemStatus, updateConnectionStatus, appendChild_card,
    appendChild_marker, alter_elements;
  apply modify_page_frames; intros ? [? ? ? ? ? ?]; reflexivity.

Lemma updateSensorCard_store sensorId sensorData :
  frames sensorsData (updateSensorCard sensorId sensorData).
Proof.
  unfold updateSensorCard.
  apply frames_bind; [apply frames_gets|intros found].
  destruct found; [|apply frames_ret].
  destruct sensorData as [sd|]; [|apply frames_throw].
  destruct (sd_data sd); [|apply frames_throw].
  repeat (apply frames_bind; [frame_page|intros _]).
  destruct (sd_system_status sd); [frame_page|apply frames_throw].
Qed.

Lemma updateCharts_store : frames sensorsData updateCharts.
Proof.
  unfold updateCharts, updateTemperatureChart, updateHumidityChart.
  frame.
Qed.

Lemma handleRealtimeData_store ev d :
  sensorsData (state_after (handleRealtimeData ev d))
  = sensorsData (state_after (store_reading ev d)).
Proof.
  unfold handleRealtimeData. apply frames_after. intros _.
  apply frames_bind; auto using updateSensorCard_store.
  intros _. apply updateCharts_store.
Qed.

Lemma renderSensors_frames {X} (f : dashboard -> X) sensors :
  (forall p d, f (with_page p d) = f d) -> frames f (renderSensors sensors).
Proof.
  intros H. unfold renderSensors.
  apply frames_bind; [apply frames_gets|intros [cs|]]; [|apply frames_ret].
  apply frames_bind; [now apply modify_page_frames|intros _].
  apply frames_forEach. intros sensor.
  apply frames_bind; [|intros c; now apply modify_page_frames].
  unfold createSensorCard.
  destruct (latest_data sensor) as [[[m|] [s|]]|];
    auto using frames_ret, frames_throw.
Qed.

Lemma renderBuildingMap_frames {X} (f : dashboard -> X) sensors :
  (forall p d, f (with_page p d) = f d) -> frames f (renderBuildingMap sensors).
Proof.
  intros H. unfold renderBuildingMap.
  apply frames_bind; [apply frames_gets|intros [cs|]]; [|apply frames_ret].
  apply frames_bind; [now apply modify_page_frames|intros _].
  apply frames_forEach_index. intros sensor j.
  apply frames_bind; [|intros c; now apply modify_page_frames].
  unfold createSensorMarker.
  destruct (sensor_coordinates sensor); auto using frames_ret, frames_throw.
Qed.

Lemma updateSystemStatus_frames {X} (f : dashboard -> X) status :
  (forall p d, f (with_page p d) = f d) -> frames f (updateSystemStatus status).
Proof. intros H. now apply modify_page_frames. Qed.

Lemma updateAlerts_frames {X} (f : dashboard -> X) a :
  (forall a d, f (with_alerts a d) = f d) -> frames f (updateAlerts a).
Proof. intros H d. apply H. Qed.

Lemma render_frames {X} (f : dashboard -> X) sensors :
  (forall p d, f (with_page p d) = f d) ->
  frames f (renderSensors sensors ;; renderBuildingMap sensors).
Proof.
  intros H. apply frames_bind; intros;
    auto using renderSensors_frames, renderBuildingMap_frames.
Qed.

Lemma handleInitialData_frames {X} (f : dashboard -> X) data :
  (forall p d, f (with_page p d) = f d) ->
  (forall a d, f (with_alerts a d) = f d) ->
  frames f (handleInitialData data).
Proof.
  intros Hp Ha. unfold handleInitialData.
  apply frames_bind.
  { destruct (id_sensors data); auto using render_frames, frames_ret. }
  intros _. apply frames_bind.
  { destruct (id_system_status data) as [status|]; [|apply frames_ret].
    destruct (String.eqb status "");
      auto using frames_ret, updateSystemStatus_frames. }
  intros _.
  destruct (id_alerts data); auto using frames_ret, updateAlerts_frames.
Qed.

Lemma loadInitialData_settled_frames {X} (f : dashboard -> X) r :
  (forall p d, f (with_page p d) = f d) ->
  (forall a d, f (with_alerts a d) = f d) ->
  frames f (loadInitialData_settled r).
Proof.
  intros Hp Ha. unfold loadInitialData_settled.
  apply frames_try_catch; [|intros; now apply showNotification_frames].
  destruct r; [apply frames_throw|].
  apply frames_bind; intros; apply frames_when;
    auto using render_frames, updateAlerts_frames.
Qed.

Lemma handleInitialData_store data : frames sensorsData (handleInitialData data).
Proof. apply handleInitialData_frames; intros ? [? ? ? ? ? ?]; reflexivity. Qed.

Lemma loadInitialData_settled_store r :
  frames sensorsData (loadInitialData_settled r).
Proof.
  apply loadInitialData_settled_frames; intros ? [? ? ? ? ? ?]; reflexivity.
Qed.

Lemma dispatch_store e d :
  sensorsData (state_after (dispatch e d))
  = match e with
    | RealtimeData ev => sensorsData (state_after (store_reading ev d))
    | _ => sensorsData d
    end.
Proof.
  destruct e; simpl.
  - reflexivity.
  - reflexivity.
  - apply handleInitialData_store.
  - apply handleRealtimeData_store.
  - unfold handleNewAlert, addNewAlert, state_after, bind, modify; simpl.
    destruct (severity a); reflexivity.
  - destruct system_status; reflexivity.
  - unfold healthCheck, state_after, bind, gets; simpl.
    destruct (isConnected d); reflexivity.
  - apply loadInitialData_settled_store.
Qed.

(** The buffers after a feed, from a store within the cap. *)
Lemma run_buffer events : forall d sensorId,
  store_ok (sensorsData d) ->
  store_ok (sensorsData (run events d))
  /\ buffer_of (sensorsData (run events d)) sensorId
     = JS.slice_last 50
         (buffer_of (sensorsData d) sensorId ++ inserted sensorId events).
Proof.
  induction events as [|e events IH]; intros d sensorId Hok.
  - split; [assumption|]. simpl. rewrite app_nil_r.
    symmetry. apply slice_last_all. apply Hok.
  - change (e :: events) with ([e] ++ events).
    rewrite inserted_app, app_assoc, <- slice_last_app.
    simpl run.
    assert (Hok' : store_ok (sensorsData (state_after (dispatch e d)))).
    { rewrite dispatch_store. destruct e; auto using store_reading_ok. }
    destruct (IH (state_after (dispatch e d)) sensorId Hok') as [Hok2 Hbuf].
    split; [assumption|]. rewrite Hbuf. f_equal. f_equal.
    unfold buffer_of at 1. rewrite dispatch_store.
    destruct e as [| | |ev| | | |];
      try (simpl inserted; rewrite app_nil_r; symmetry; apply slice_last_all;
           apply Hok).
    exact (@store_reading_buffer ev d sensorId Hok).
Qed.

Lemma constructed_ok p tc hc : store_ok (sensorsData (constructed p tc hc)).
Proof. intros k. simpl. split; auto. unfold buffer_of. simpl. lia. Qed.

(* ===================================================================== *)
(** ** Sorted lists *)
(* ===================================================================== *)

Section SortedFacts.
Context {A : Type} (R : A -> A -> Prop).

Lemma StronglySorted_app_inv (l l' : list A) :
  StronglySorted R (l ++ l') ->
  StronglySorted R l /\ StronglySorted R l'
  /\ (forall x y, In x l -> In y l' -> R x y).
Proof.
  induction l as [|a l IH]; simpl; intros H.
  - repeat split; [constructor|assumption|intros ? ? []].
  - apply StronglySorted_inv in H. destruct H as [Hs Hall].
    destruct (IH Hs) as (Hl & Hl' & Hx).
    rewrite Forall_app in Hall. destruct Hall as [Hal Hal'].
    repeat split; auto.
    + constructor; assumption.
    + intros x y [<-|Hin] Hy; auto.
      rewrite Forall_forall in Hal'. auto.
Qed.

Lemma StronglySorted_skipn n (l : list A) :
  StronglySorted R l -> StronglySorted R (skipn n l).
Proof.
  intros H. rewrite <- (firstn_skipn n l) in H.
  apply StronglySorted_app_inv in H. tauto.
Qed.

Lemma StronglySorted_firstn n (l : list A) :
  StronglySorted R l -> StronglySorted R (firstn n l).
Proof.
  intros H. rewrite <- (firstn_skipn n l) in H.
  apply StronglySorted_app_inv in H. tauto.
Qed.

Lemma StronglySorted_filter (p : A -> bool) (l : list A) :
  StronglySorted R l -> StronglySorted R (filter p l).
Proof.
  induction 1 as [|a l Hs IH Hall]; simpl; [constructor|].
  destruct (p a); auto. constructor; auto.
  rewrite Forall_forall in *. intros x Hx.
  apply filter_In in Hx. apply Hall. tauto.
Qed.

End SortedFacts.

Lemma slice_last_sorted {A} (R : A -> A -> Prop) n (l : list A) :
  StronglySorted R l -> StronglySorted R (JS.slice_last n l).
Proof. apply StronglySorted_skipn. Qed.



(** The buffers after a feed, from the freshly constructed object. *)
Lemma run_constructed_buffer p tc hc events sensorId :
  buffer_of (sensorsData (run events (constructed p tc hc))) sensorId
  = JS.slice_last 50 (inserted sensorId events).
Proof.
  destruct (@run_buffer events (constructed p tc hc) sensorId
              (constructed_ok p tc hc)) as [_ Hbuf].
  exact Hbuf.
Qed.

(* ===================================================================== *)
(** ** Properties of the series store *)
(* ===================================================================== *)

Lemma delivered_inserted sensorId events :
  JS.inherited sensorId = false ->
  inserted sensorId events = delivered sensorId events.
Proof.
  intros Hi. induction events as [|e events IH]; [reflexivity|].
  destruct e as [| |idata|ev|a|system_status| |r]; simpl; auto.
  rewrite Hi, andb_true_r. unfold reading_literal.
  destruct (rt_data ev) as [[[m|] st]|];
    destruct (String.eqb (rt_sensor_id ev) sensorId); simpl; now rewrite ?IH.
Qed.

(** For a sensor id that does not name a member of [Object.prototype]:
    whatever the feed delivered since the page was loaded, the sensor's
    buffer holds at most 50 readings, and they are the most recent
    min(k, 50) of the k readings the feed delivered for that sensor, in
    arrival order. *)
Theorem buffer_keeps_most_recent_50 :
  forall p temperatureCanvas humidityCanvas events sensorId,
    JS.inherited sensorId = false ->
    let d := run events (constructed p temperatureCanvas humidityCanvas) in
    let buffer := buffer_of (sensorsData d) sensorId in
    let k := List.length (delivered sensorId events) in
    (List.length buffer <= 50)%nat
    /\ List.length buffer = Nat.min k 50
    /\ buffer = JS.slice_last (Nat.min k 50) (delivered sensorId events).
Proof.
  intros p tc hc events sensorId Hi d buffer k.
  assert (Hbuf : buffer = JS.slice_last 50 (delivered sensorId events)).
  { rewrite <- (@delivered_inserted sensorId events Hi). apply run_constructed_buffer. }
  assert (Hlen : List.length buffer = Nat.min k 50).
  { rewrite Hbuf, slice_last_length. unfold k. lia. }
  repeat split; [lia|assumption|].
  rewrite Hbuf. unfold JS.slice_last. f_equal. fold k. lia.
Qed.

Lemma buffer_keeps_most_recent_50_witness :
  JS.inherited "hvac_kitchen" = false
  /\ buffer_of
       (sensorsData
          (run [reading_event "hvac_kitchen" 1000 21;
                reading_event "hvac_reception" 1500 19;
                reading_event "hvac_kitchen" 2000 22]
             (constructed blank_page true true)))
       "hvac_kitchen"
     = JS.slice_last 2
         (delivered "hvac_kitchen"
            [reading_event "hvac_kitchen" 1000 21;
             reading_event "hvac_reception" 1500 19;
             reading_event "hvac_kitchen" 2000 22]).
Proof.
  split; [reflexivity|].
  exact (proj2 (proj2 (@buffer_keeps_most_recent_50 blank_page true true
                         [reading_event "hvac_kitchen" 1000 21;
                          reading_event "hvac_reception" 1500 19;
                          reading_event "hvac_kitchen" 2000 22]
                         "hvac_kitchen" eq_refl))).
Defined.

(** C2. The test that creates a sensor's buffer misses the ids that name
    a member of [Object.prototype]: [this.sensorsData['constructor']] is
    the inherited function, a truthy value, so no buffer is created and
    [push] is not a function. Every reading event of such a sensor raises
    a TypeError and leaves the store as it was: the feed delivered two
    readings and the sensor's buffer holds none of them. *)
Theorem prototype_named_sensor_is_never_stored :
  let first := reading_event "constructor" 1000 21 in
  let feed := [first; reading_event "constructor" 2000 22] in
  let d0 := constructed full_page true true in
  dispatch first d0 = (Threw JS.TypeError, d0)
  /\ sensorsData (run feed d0) = []
  /\ buffer_of (sensorsData (run feed d0)) "constructor" = []
  /\ delivered "constructor" feed
     = [{| timestamp := 1000; temperature := JS.Num 21;
           humidity := JS.Num 21; co2 := JS.Num 21 |};
        {| timestamp := 2000; temperature := JS.Num 22;
           humidity := JS.Num 22; co2 := JS.Num 22 |}]
  /\ buffer_of (sensorsData (run feed d0)) "constructor"
     <> JS.slice_last 50 (delivered "constructor" feed).
Proof.
  cbv zeta. repeat split; try reflexivity. discriminate.
Qed.




(* ===================================================================== *)
(** ** Enumeration of a plain object *)
(* ===================================================================== *)

Section EntriesFacts.
Context {A : Type}.
Implicit Types (o : JS.object A) (e : string * A).

Lemma insert_by_index_In e e' (l : list (string * A)) :
  In e' (JS.insert_by_index e l) <-> e' = e \/ In e' l.
Proof.
  induction l as [|x l IH]; simpl.
  - intuition.
  - destruct (_ <=? _)%N; simpl; rewrite ?IH; intuition.
Qed.

Lemma sort_by_index_In e (l : list (string * A)) :
  In e (JS.sort_by_index l) <-> In e l.
Proof.
  induction l as [|x l IH]; simpl; [tauto|].
  rewrite insert_by_index_In, IH. intuition.
Qed.

Lemma entries_In e o : In e (JS.entries o) <-> In e o.
Proof.
  unfold JS.entries. rewrite in_app_iff, sort_by_index_In, !filter_In.
  destruct (JS.is_index (fst e)); simpl; intuition discriminate.
Qed.

Lemma insert_by_index_length e (l : list (string * A)) :
  List.length (JS.insert_by_index e l) = S (List.length l).
Proof.
  induction l as [|x l IH]; simpl; [reflexivity|].
  destruct (_ <=? _)%N; simpl; now rewrite ?IH.
Qed.

Lemma sort_by_index_length (l : list (string * A)) :
  List.length (JS.sort_by_index l) = List.length l.
Proof.
  induction l as [|x l IH]; simpl; [reflexivity|].
  now rewrite insert_by_index_length, IH.
Qed.

(** Without array-index keys the enumeration is the creation order. *)
Lemma entries_plain o :
  forallb (fun k => negb (JS.is_index k)) (map fst o) = true ->
  JS.entries o = o.
Proof.
  intros H. unfold JS.entries.
  assert (E1 : filter (fun e => JS.is_index (fst e)) o = []).
  { induction o as [|x o IH]; simpl in *; [reflexivity|].
    apply andb_true_iff in H. destruct H as [Hx Ho].
    apply negb_true_iff in Hx. rewrite Hx. auto. }
  assert (E2 : filter (fun e => negb (JS.is_index (fst e))) o = o).
  { induction o as [|x o IH]; simpl in *; [reflexivity|].
    apply andb_true_iff in H. destruct H as [Hx Ho].
    rewrite Hx. f_equal. apply IH; auto.
    clear - Ho. induction o as [|y o IH]; simpl in *; [reflexivity|].
    apply andb_true_iff in Ho. destruct Ho as [Hy Ho].
    apply negb_true_iff in Hy. rewrite Hy. auto. }
  now rewrite E1, E2.
Qed.

Lemma keys_In k o : In k (JS.keys o) <-> In k (map fst o).
Proof.
  unfold JS.keys. rewrite !in_map_iff.
  split; intros (e & <- & He); exists e; split; auto; now apply entries_In.
Qed.

Lemma keys_length o : List.length (JS.keys o) = List.length o.
Proof.
  unfold JS.keys, JS.entries.
  rewrite length_map, length_app, sort_by_index_length.
  induction o as [|x o IH]; simpl; [reflexivity|].
  destruct (JS.is_index (fst x)); simpl; lia.
Qed.

End EntriesFacts.

(* ===================================================================== *)
(** ** The timeline *)
(* ===================================================================== *)

Lemma insert_ascending_In t u l :
  In u (insert_ascending t l) <-> u = t \/ In u l.
Proof.
  induction l as [|x l IH]; simpl.
  - intuition.
  - destruct (t <=? x); simpl; rewrite ?IH; intuition.
Qed.

Lemma sort_ascending_In t l : In t (sort_ascending l) <-> In t l.
Proof.
  induction l as [|x l IH]; simpl; [tauto|].
  rewrite insert_ascending_In, IH. intuition.
Qed.

Lemma insert_ascending_sorted t l :
  ascending l -> ascending (insert_ascending t l).
Proof.
  unfold ascending. induction 1 as [|x l Hs IH Hall]; simpl.
  - repeat constructor.
  - destruct (Z.leb_spec t x).
    + constructor; [now constructor|].
      constructor; [assumption|].
      rewrite Forall_forall in *. intros y Hy. specialize (Hall y Hy). lia.
    + constructor; [assumption|].
      rewrite Forall_forall in *. intros y Hy.
      apply insert_ascending_In in Hy. destruct Hy as [->|Hy]; [lia|auto].
Qed.

Lemma sort_ascending_sorted l : ascending (sort_ascending l).
Proof.
  induction l; simpl; [constructor|now apply insert_ascending_sorted].
Qed.

Lemma existsb_eqb_In t seen : existsb (Z.eqb t) seen = true <-> In t seen.
Proof.
  rewrite existsb_exists. split.
  - intros (x & Hx & E). apply Z.eqb_eq in E. now subst.
  - intros H. exists t. split; [assumption|apply Z.eqb_refl].
Qed.

Lemma Set_from_In seen l t :
  In t (Set_from seen l) <-> In t l /\ ~ In t seen.
Proof.
  revert seen. induction l as [|x l IH]; intros seen; simpl; [tauto|].
  destruct (existsb (Z.eqb x) seen) eqn:E.
  - apply existsb_eqb_In in E. rewrite IH.
    split; [tauto|]. intros [[->|H] Hn]; tauto.
  - assert (Hx : ~ In x seen).
    { intros H. apply existsb_eqb_In in H. congruence. }
    simpl. rewrite IH. simpl.
    destruct (Z.eq_dec x t) as [->|Hne]; intuition.
Qed.

Lemma Set_from_NoDup seen l : NoDup (Set_from seen l).
Proof.
  revert seen. induction l as [|x l IH]; intros seen; simpl; [constructor|].
  destruct (existsb (Z.eqb x) seen); auto.
  constructor; auto. rewrite Set_from_In. simpl. tauto.
Qed.

Lemma Set_from_sorted seen l :
  ascending l -> strictly_ascending (Set_from seen l).
Proof.
  unfold ascending, strictly_ascending. intros H. revert seen.
  induction H as [|x l Hs IH Hall]; intros seen; simpl; [constructor|].
  destruct (existsb (Z.eqb x) seen); auto.
  constructor; auto.
  rewrite Forall_forall in *. intros y Hy.
  apply Set_from_In in Hy. destruct Hy as [Hy Hn]. simpl in Hn.
  specialize (Hall y Hy). assert (x <> y) by tauto. lia.
Qed.

Lemma values_In {A} (o : JS.object A) a :
  In a (JS.values o) <-> exists k, In (k, a) o.
Proof.
  unfold JS.values. rewrite in_map_iff. split.
  - intros ([k a'] & <- & He). exists k. now apply entries_In.
  - intros (k & H). exists (k, a). split; [reflexivity|now apply entries_In].
Qed.

Lemma allTimestamps_In store t :
  In t (allTimestamps store) <-> stored_instant store t.
Proof.
  unfold allTimestamps, stored_instant.
  rewrite sort_ascending_In, in_map_iff. split.
  - intros (d & <- & Hd). apply in_concat in Hd.
    destruct Hd as (b & Hb & Hd). apply values_In in Hb.
    destruct Hb as (k & Hk). eauto 6.
  - intros (k & b & d & Hk & Hd & <-). exists d. split; [reflexivity|].
    apply in_concat. exists b. split; [|assumption].
    apply values_In. eauto.
Qed.

Lemma distinct_instants_In store t :
  In t (Set_from [] (allTimestamps store)) <-> stored_instant store t.
Proof. rewrite Set_from_In, allTimestamps_In. simpl. tauto. Qed.

(* ===================================================================== *)
(** ** The dataset builder *)
(* ===================================================================== *)

Section MapIndex.
Context {A B : Type} (f : A -> nat -> B).

Lemma map_index_length i (l : list A) :
  List.length (map_index f i l) = List.length l.
Proof. revert i. induction l; simpl; auto. Qed.

Lemma map_index_nth_error (l : list A) : forall i n,
  nth_error (map_index f i l) n
  = option_map (fun a => f a (i + n)%nat) (nth_error l n).
Proof.
  induction l as [|a l IH]; intros i [|n]; simpl; auto.
  - now rewrite Nat.add_0_r.
  - rewrite IH. now rewrite Nat.add_succ_r.
Qed.

Lemma map_map_index {C} (g : B -> C) i (l : list A) :
  map g (map_index f i l) = map_index (fun a j => g (f a j)) i l.
Proof. revert i. induction l; simpl; intros; f_equal; auto. Qed.

End MapIndex.

(** The loop of [updateHumidityChart] fills the two arrays in key order. *)
Lemma humidity_loop_spec store timestamps sensorIds : forall index hs cs,
  humidity_loop store timestamps index sensorIds hs cs
  = (hs ++ map_index (humidity_dataset store timestamps) index sensorIds,
     cs ++ map_index (co2_dataset store timestamps) index sensorIds).
Proof.
  induction sensorIds as [|k ks IH]; intros index hs cs; simpl.
  - now rewrite !app_nil_r.
  - rewrite IH, <- !app_assoc. reflexivity.
Qed.

Lemma humidity_datasets_spec store timestamps :
  humidity_datasets store timestamps
  = map_index (humidity_dataset store timestamps) 0 (JS.keys store)
    ++ map_index (co2_dataset store timestamps) 0 (JS.keys store).
Proof. unfold humidity_datasets. now rewrite humidity_loop_spec. Qed.

Lemma temperature_dataset_at store timestamps index sensorId :
  nth_error (JS.keys store) index = Some sensorId ->
  nth_error (temperature_datasets store timestamps) index
  = Some (temperature_dataset store timestamps sensorId index).
Proof.
  intros H. unfold temperature_datasets.
  now rewrite map_index_nth_error, H.
Qed.

Lemma humidity_dataset_at store timestamps index sensorId :
  nth_error (JS.keys store) index = Some sensorId ->
  nth_error (humidity_datasets store timestamps) index
  = Some (humidity_dataset store timestamps sensorId index).
Proof.
  intros H. rewrite humidity_datasets_spec.
  rewrite nth_error_app1.
  - now rewrite map_index_nth_error, H.
  - rewrite map_index_length. apply nth_error_Some. congruence.
Qed.

Lemma co2_dataset_at store timestamps index sensorId :
  nth_error (JS.keys store) index = Some sensorId ->
  nth_error (humidity_datasets store timestamps)
    (List.length (JS.keys store) + index)
  = Some (co2_dataset store timestamps sensorId index).
Proof.
  intros H. rewrite humidity_datasets_spec.
  rewrite nth_error_app2 by (rewrite map_index_length; lia).
  rewrite map_index_length.
  replace (List.length (JS.keys store) + index - List.length (JS.keys store))%nat
    with index by lia.
  now rewrite map_index_nth_error, H.
Qed.

Lemma keys_plain (store : series_store) :
  plain_ids store = true -> JS.keys store = first_seen store.
Proof.
  intros H. unfold JS.keys, first_seen. now rewrite entries_plain.
Qed.

(** The palette has eight entries and [sensorColor] cycles through it. *)
Lemma sensorColor_palette index :
  nth_error sensorColors (index mod 8) = Some (sensorColor index).
Proof.
  unfold sensorColor.
  change (List.length sensorColors) with 8%nat.
  assert (H : (index mod 8 < 8)%nat) by (apply Nat.mod_upper_bound; lia).
  destruct (index mod 8)%nat as [|[|[|[|[|[|[|[|n]]]]]]]]; try reflexivity; lia.
Qed.

(** *** What a pass writes in the charts *)

Lemma updateCharts_charts d :
  let store := sensorsData d in
  let timeline := uniqueTimestamps store in
  charts (state_after (updateCharts d))
  = if (List.length (JS.keys store) =? 0)%nat then charts d
    else
      {| charts_temperature :=
           option_map
             (fun _ => {| labels := map LocaleTime timeline;
                          datasets := temperature_datasets store timeline |})
             (charts_temperature (charts d));
         charts_humidity :=
           option_map
             (fun _ => {| labels := map LocaleTime timeline;
                          datasets := humidity_datasets store timeline |})
             (charts_humidity (charts d)) |}.
Proof.
  cbv zeta. unfold updateCharts, updateTemperatureChart, updateHumidityChart,
    bind, gets, modify, ret, state_after. simpl.
  destruct (List.length (JS.keys (sensorsData d)) =? 0)%nat; [reflexivity|].
  simpl. destruct d as [s c ch pg rq al]. simpl.
  destruct ch as [[t|] [h|]]; reflexivity.
Qed.

Lemma updateCharts_pass d :
  JS.keys (sensorsData d) <> [] ->
  let store := sensorsData d in
  let timeline := uniqueTimestamps store in
  charts (state_after (updateCharts d))
  = {| charts_temperature :=
         option_map
           (fun _ => {| labels := map LocaleTime timeline;
                        datasets := temperature_datasets store timeline |})
           (charts_temperature (charts d));
       charts_humidity :=
         option_map
           (fun _ => {| labels := map LocaleTime timeline;
                        datasets := humidity_datasets store timeline |})
           (charts_humidity (charts d)) |}.
Proof.
  intros H. cbv zeta. rewrite updateCharts_charts.
  destruct (JS.keys (sensorsData d)); [contradiction|reflexivity].
Qed.

(** *** Readings on the timeline *)

Section SortedByKey.
Context {A : Type} (key : A -> Z).

Lemma StronglySorted_map_key (l : list A) :
  StronglySorted Z.lt (map key l)
  <-> StronglySorted (fun a b => key a < key b) l.
Proof.
  induction l as [|a l IH]; simpl.
  - split; constructor.
  - split; intros H; apply StronglySorted_inv in H; destruct H as [Hs Hall];
      constructor; try tauto.
    + rewrite Forall_forall in *. intros x Hx. apply Hall.
      now apply in_map.
    + rewrite Forall_forall in *. intros x Hx.
      apply in_map_iff in Hx. destruct Hx as (y & <- & Hy). auto.
Qed.

(** Two lists strictly sorted by key with the same members are equal. *)
Lemma sorted_by_key_ext (l1 : list A) : forall l2,
  StronglySorted (fun a b => key a < key b) l1 ->
  StronglySorted (fun a b => key a < key b) l2 ->
  (forall x, In x l1 <-> In x l2) ->
  l1 = l2.
Proof.
  induction l1 as [|a l1 IH]; intros [|b l2] H1 H2 Hext.
  - reflexivity.
  - exfalso. apply (Hext b). now left.
  - exfalso. apply (Hext a). now left.
  - apply StronglySorted_inv in H1. destruct H1 as [Hs1 Ha].
    apply StronglySorted_inv in H2. destruct H2 as [Hs2 Hb].
    rewrite Forall_forall in Ha, Hb.
    assert (E : a = b).
    { destruct (proj1 (Hext a) (or_introl eq_refl)) as [E|Hin]; [auto|].
      destruct (proj2 (Hext b) (or_introl eq_refl)) as [E|Hin']; [auto|].
      specialize (Ha _ Hin'). specialize (Hb _ Hin). lia. }
    subst b. f_equal. apply IH; auto.
    intros x. split; intros Hx.
    + destruct (proj1 (Hext x) (or_intror Hx)) as [E|Hin]; [|assumption].
      subst x. specialize (Ha _ Hx). lia.
    + destruct (proj2 (Hext x) (or_intror Hx)) as [E|Hin]; [|assumption].
      subst x. specialize (Hb _ Hx). lia.
Qed.

End SortedByKey.

Lemma on_timeline_In timestamps d :
  on_timeline timestamps d = true <-> In (timestamp d) timestamps.
Proof.
  unfold on_timeline. rewrite existsb_exists. split.
  - intros (t & Ht & E). apply Z.eqb_eq in E. now subst.
  - intros H. exists (timestamp d). split; [assumption|apply Z.eqb_refl].
Qed.

Lemma reading_at_Some buffer t d :
  reading_at buffer t = Some d -> In d buffer /\ timestamp d = t.
Proof.
  unfold reading_at. intros H. apply find_some in H.
  destruct H as [H E]. apply Z.eqb_eq in E. auto.
Qed.

(** In a buffer with strictly ascending timestamps the reading at an
    instant is unique. *)
Lemma reading_at_unique buffer d :
  strictly_ascending (map timestamp buffer) ->
  In d buffer -> reading_at buffer (timestamp d) = Some d.
Proof.
  unfold strictly_ascending, reading_at.
  induction buffer as [|x buffer IH]; simpl; intros Hs Hin; [tauto|].
  apply StronglySorted_inv in Hs. destruct Hs as [Hs Hall].
  rewrite Forall_forall in Hall.
  destruct Hin as [->|Hin].
  - now rewrite Z.eqb_refl.
  - assert (timestamp x < timestamp d) by (apply Hall; now apply in_map).
    destruct (Z.eqb_spec (timestamp x) (timestamp d)); [lia|auto].
Qed.

(** The readings found at the instants of a timeline. *)
Lemma readings_on_timeline buffer timestamps :
  strictly_ascending (map timestamp buffer) ->
  strictly_ascending timestamps ->
  filter (on_timeline timestamps) buffer
  = flat_map (fun t => match reading_at buffer t with
                       | Some d => [d]
                       | None => []
                       end) timestamps.
Proof.
  intros Hb Ht. apply (sorted_by_key_ext timestamp).
  - apply StronglySorted_filter. now apply StronglySorted_map_key.
  - clear Hb. unfold strictly_ascending in Ht.
    induction Ht as [|t ts Hs IH Hall]; simpl; [constructor|].
    rewrite Forall_forall in Hall.
    destruct (reading_at buffer t) as [d|] eqn:E; simpl; [|assumption].
    constructor; [assumption|].
    apply reading_at_Some in E. destruct E as [_ <-].
    rewrite Forall_forall. intros x Hx.
    apply in_flat_map in Hx. destruct Hx as (u & Hu & Hx).
    destruct (reading_at buffer u) as [y|] eqn:Ey; [|destruct Hx].
    destruct Hx as [<-|[]]. apply reading_at_Some in Ey.
    destruct Ey as [_ ->]. auto.
  - intros d. rewrite filter_In, on_timeline_In, in_flat_map. split.
    + intros [Hd Hin]. exists (timestamp d). split; [assumption|].
      rewrite reading_at_unique by assumption. now left.
    + intros (t & Hin & Hd).
      destruct (reading_at buffer t) as [y|] eqn:Ey; [|destruct Hd].
      destruct Hd as [<-|[]]. apply reading_at_Some in Ey.
      destruct Ey as [Hy <-]. auto.
Qed.

Lemma present_values_spec metric buffer timestamps :
  strictly_ascending (map timestamp buffer) ->
  strictly_ascending timestamps ->
  map metric (filter (on_timeline timestamps) buffer)
  = present_values metric buffer timestamps.
Proof.
  intros Hb Ht. rewrite readings_on_timeline by assumption.
  unfold present_values. clear.
  induction timestamps as [|t ts IH]; simpl; [reflexivity|].
  rewrite map_app, IH. now destruct (reading_at buffer t).
Qed.

Lemma present_values_length metric buffer timestamps :
  (List.length (present_values metric buffer timestamps)
   <= List.length timestamps)%nat.
Proof.
  unfold present_values.
  induction timestamps as [|t ts IH]; simpl; [lia|].
  rewrite length_app. destruct (reading_at buffer t); simpl; lia.
Qed.

Lemma uniqueTimestamps_sorted store :
  strictly_ascending (uniqueTimestamps store).
Proof.
  apply slice_last_sorted, Set_from_sorted, sort_ascending_sorted.
Qed.

(* ===================================================================== *)
(** ** Properties of the timeline *)
(* ===================================================================== *)

(** C3. A pass over a non-empty store labels both charts with the timeline
    it computes. That timeline is strictly ascending, so free of
    repetition; it holds at most 20 instants, each of them the timestamp of
    a stored reading; an instant of the store that is left out is older than
    every instant kept, and then 20 are kept; when the store has no more
    than 20 distinct instants, all of them are on the timeline. *)
Theorem timeline_most_recent_distinct_ascending :
  forall d,
    JS.keys (sensorsData d) <> [] ->
    let store := sensorsData d in
    let timeline := uniqueTimestamps store in
    let pass := state_after (updateCharts d) in
    option_map labels (charts_temperature (charts pass))
    = option_map (fun _ => map LocaleTime timeline)
        (charts_temperature (charts d))
    /\ option_map labels (charts_humidity (charts pass))
       = option_map (fun _ => map LocaleTime timeline)
           (charts_humidity (charts d))
    /\ strictly_ascending timeline
    /\ (List.length timeline <= 20)%nat
    /\ (forall t, In t timeline -> stored_instant store t)
    /\ (forall t, stored_instant store t ->
          In t timeline
          \/ (List.length timeline = 20%nat
              /\ forall u, In u timeline -> t < u))
    /\ ((forall l, NoDup l -> (forall t, In t l -> stored_instant store t) ->
           (List.length l <= 20)%nat) ->
        forall t, stored_instant store t -> In t timeline).
Proof.
  intros d Hkeys store timeline pass.
  assert (Hpass := updateCharts_pass d Hkeys). cbv zeta in Hpass.
  fold store timeline pass in Hpass.
  split; [rewrite Hpass; simpl; now destruct (charts_temperature (charts d))|].
  split; [rewrite Hpass; simpl; now destruct (charts_humidity (charts d))|].
  set (distinct := Set_from [] (allTimestamps store)).
  assert (Hsorted : strictly_ascending distinct)
    by apply Set_from_sorted, sort_ascending_sorted.
  assert (Hlen : List.length timeline = Nat.min 20 (List.length distinct))
    by apply slice_last_length.
  destruct (slice_last_suffix 20 distinct) as [older Hsplit].
  fold (uniqueTimestamps store) in Hsplit. fold timeline in Hsplit.
  split; [|split; [|split; [|split]]].
  - apply uniqueTimestamps_sorted.
  - lia.
  - intros t Ht. apply distinct_instants_In.
    now apply slice_last_In in Ht.
  - intros t Ht. apply distinct_instants_In in Ht.
    fold distinct in Ht. rewrite Hsplit in Ht.
    apply in_app_or in Ht. destruct Ht as [Ht|Ht]; [right|now left].
    split.
    + assert (List.length distinct
              = (List.length older + List.length timeline)%nat)
        by (rewrite Hsplit at 1; apply length_app).
      destruct older; [destruct Ht|]. simpl List.length in H. lia.
    + intros u Hu. unfold strictly_ascending in Hsorted.
      rewrite Hsplit in Hsorted.
      apply StronglySorted_app_inv in Hsorted.
      destruct Hsorted as (_ & _ & H). now apply H.
  - intros Hfew t Ht.
    assert (Hd : (List.length distinct <= 20)%nat).
    { apply Hfew; [apply Set_from_NoDup|].
      intros u Hu. now apply distinct_instants_In. }
    unfold timeline, uniqueTimestamps. fold distinct.
    rewrite slice_last_all by assumption.
    now apply distinct_instants_In.
Qed.

Lemma timeline_most_recent_distinct_ascending_witness :
  let d :=
    run [reading_event "hvac_office_a1" 36000000 21;
         reading_event "hvac_office_a2" 36000000 19;
         reading_event "hvac_office_a1" 36060000 22;
         reading_event "hvac_office_a2" 36120000 20]
      (constructed blank_page true true) in
  JS.keys (sensorsData d) <> []
  /\ uniqueTimestamps (sensorsData d) = [36000000; 36060000; 36120000]
  /\ strictly_ascending (uniqueTimestamps (sensorsData d)).
Proof.
  cbv zeta.
  assert (H : JS.keys
                (sensorsData
                   (run [reading_event "hvac_office_a1" 36000000 21;
                         reading_event "hvac_office_a2" 36000000 19;
                         reading_event "hvac_office_a1" 36060000 22;
                         reading_event "hvac_office_a2" 36120000 20]
                      (constructed blank_page true true))) <> [])
    by (vm_compute; discriminate).
  split; [exact H|]. split; [reflexivity|].
  exact (proj1 (proj2 (proj2 (@timeline_most_recent_distinct_ascending _ H)))).
Defined.

(* ===================================================================== *)
(** ** Properties of the aligned datasets *)
(* ===================================================================== *)

(** C1, as the code has it. A pass writes into each chart the datasets
    the builder makes from the store and the timeline. For the sensor at a
    position of the key enumeration whose buffer has strictly ascending
    timestamps, each of its three datasets lists, in timeline order, the
    values of its readings at the timeline instants it has a reading at, and
    has no slot for the other instants: no absent marker is written, and a
    dataset is never longer than the timeline but can be shorter. *)
Theorem datasets_hold_present_readings :
  forall d index sensorId,
    nth_error (JS.keys (sensorsData d)) index = Some sensorId ->
    strictly_ascending (map timestamp (buffer_of (sensorsData d) sensorId)) ->
    let store := sensorsData d in
    let timeline := uniqueTimestamps store in
    let buffer := buffer_of store sensorId in
    let pass := state_after (updateCharts d) in
    option_map datasets (charts_temperature (charts pass))
    = option_map (fun _ => temperature_datasets store timeline)
        (charts_temperature (charts d))
    /\ option_map datasets (charts_humidity (charts pass))
       = option_map (fun _ => humidity_datasets store timeline)
           (charts_humidity (charts d))
    /\ exists t h c,
         nth_error (temperature_datasets store timeline) index = Some t
         /\ nth_error (humidity_datasets store timeline) index = Some h
         /\ nth_error (humidity_datasets store timeline)
              (List.length (JS.keys store) + index) = Some c
         /\ data t = present_values temperature buffer timeline
         /\ data h = present_values humidity buffer timeline
         /\ data c = present_values co2 buffer timeline
         /\ (List.length (data t) <= List.length timeline)%nat
         /\ (List.length (data h) <= List.length timeline)%nat
         /\ (List.length (data c) <= List.length timeline)%nat.
Proof.
  intros d index sensorId Hkey Hasc store timeline buffer pass.
  assert (Hkeys : JS.keys (sensorsData d) <> [])
    by (intros E; rewrite E in Hkey; destruct index; discriminate).
  assert (Hpass := updateCharts_pass d Hkeys). cbv zeta in Hpass.
  fold store timeline pass in Hpass.
  split; [rewrite Hpass; simpl; now destruct (charts_temperature (charts d))|].
  split; [rewrite Hpass; simpl; now destruct (charts_humidity (charts d))|].
  pose proof (uniqueTimestamps_sorted store) as Ht. fold timeline in Ht.
  exists (temperature_dataset store timeline sensorId index),
    (humidity_dataset store timeline sensorId index),
    (co2_dataset store timeline sensorId index).
  split; [now apply temperature_dataset_at|].
  split; [now apply humidity_dataset_at|].
  split; [now apply co2_dataset_at|].
  simpl. fold buffer.
  rewrite !present_values_spec by assumption.
  repeat split; auto using present_values_length.
Qed.

Lemma datasets_hold_present_readings_witness :
  let d :=
    run [reading_event "hvac_office_a1" 36000000 21;
         reading_event "hvac_office_a2" 36000000 19;
         reading_event "hvac_office_a1" 36060000 22;
         reading_event "hvac_office_a2" 36120000 20]
      (constructed blank_page true true) in
  let store := sensorsData d in
  nth_error (JS.keys store) 1 = Some "hvac_office_a2"
  /\ strictly_ascending (map timestamp (buffer_of store "hvac_office_a2"))
  /\ exists t,
       nth_error (temperature_datasets store (uniqueTimestamps store)) 1
       = Some t
       /\ data t = [JS.Num 19; JS.Num 20].
Proof.
  cbv zeta.
  set (d := run [reading_event "hvac_office_a1" 36000000 21;
                 reading_event "hvac_office_a2" 36000000 19;
                 reading_event "hvac_office_a1" 36060000 22;
                 reading_event "hvac_office_a2" 36120000 20]
              (constructed blank_page true true)).
  assert (H1 : nth_error (JS.keys (sensorsData d)) 1 = Some "hvac_office_a2")
    by reflexivity.
  assert (H2 : strictly_ascending
                 (map timestamp (buffer_of (sensorsData d) "hvac_office_a2"))).
  { vm_compute. repeat constructor. }
  split; [exact H1|]. split; [exact H2|].
  destruct (@datasets_hold_present_readings d 1%nat "hvac_office_a2" H1 H2)
    as (_ & _ & t & h & c & Ht & _ & _ & Hd & _).
  exists t. split; [exact Ht|]. rewrite Hd. reflexivity.
Defined.

(** C1 as stated fails. Two sensors report at 10:00; the first reports
    again at 10:01 and the second at 10:02. The timeline has three
    instants, each temperature dataset has two values: no absent marker
    stands at the instant a sensor skipped, and the second sensor's 10:02
    value sits in the slot of 10:01. *)
Lemma skipped_instant_has_no_slot :
  let d :=
    run [reading_event "hvac_office_a1" 36000000 21;
         reading_event "hvac_office_a2" 36000000 19;
         reading_event "hvac_office_a1" 36060000 22;
         reading_event "hvac_office_a2" 36120000 20]
      (constructed blank_page true true) in
  let store := sensorsData d in
  let timeline := uniqueTimestamps store in
  timeline = [36000000; 36060000; 36120000]
  /\ option_map labels (charts_temperature (charts d))
     = Some (map LocaleTime timeline)
  /\ option_map (fun c => map data (datasets c)) (charts_temperature (charts d))
     = Some [[JS.Num 21; JS.Num 22]; [JS.Num 19; JS.Num 20]]
  /\ projection temperature (buffer_of store "hvac_office_a2") timeline
     = [JS.Num 19; JS.Null; JS.Num 20]
  /\ (forall ds,
        nth_error (temperature_datasets store timeline) 1 = Some ds ->
        data ds
        <> projection temperature (buffer_of store "hvac_office_a2") timeline
        /\ List.length (data ds) <> List.length timeline).
Proof.
  cbv zeta. repeat split; try reflexivity.
  - intros E. vm_compute in H. injection H as <-. discriminate E.
  - intros E. vm_compute in H. injection H as <-. discriminate E.
Qed.

(* ===================================================================== *)
(** ** Properties of the dataset builder *)
(* ===================================================================== *)


(** The colours of a chart depend on the store's keys alone. *)
Lemma colors_determined_by_keys (store1 store2 : series_store)
  timeline1 timeline2 :
  JS.keys store1 = JS.keys store2 ->
  map borderColor (temperature_datasets store1 timeline1)
  = map borderColor (temperature_datasets store2 timeline2)
  /\ map borderColor (humidity_datasets store1 timeline1)
     = map borderColor (humidity_datasets store2 timeline2)
  /\ map backgroundColor (temperature_datasets store1 timeline1)
     = map backgroundColor (temperature_datasets store2 timeline2)
  /\ map backgroundColor (humidity_datasets store1 timeline1)
     = map backgroundColor (humidity_datasets store2 timeline2).
Proof.
  intros E. unfold temperature_datasets.
  rewrite !humidity_datasets_spec, !map_app, !map_map_index, E.
  repeat split; reflexivity.
Qed.




(** C9, as the code has it. A pass over a non-empty store gives the
    humidity chart, when the page has it, the humidity datasets followed by
    the CO2 datasets, each group in the order of the key enumeration, which
    is the first-seen order when no sensor id is an array index. The two
    datasets of a sensor carry its name followed by their own suffix; the
    humidity one is on axis [y] with a solid stroke, the CO2 one on axis
    [y1] with a dashed stroke. *)
Theorem humidity_chart_layout :
  forall d,
    let store := sensorsData d in
    let timeline := uniqueTimestamps store in
    let n := List.length (JS.keys store) in
    let pass := state_after (updateCharts d) in
    charts_humidity (charts pass)
    = (if (n =? 0)%nat then charts_humidity (charts d)
       else option_map
              (fun _ => {| labels := map LocaleTime timeline;
                           datasets := humidity_datasets store timeline |})
              (charts_humidity (charts d)))
    /\ humidity_datasets store timeline
       = map_index (humidity_dataset store timeline) 0 (JS.keys store)
         ++ map_index (co2_dataset store timeline) 0 (JS.keys store)
    /\ List.length (humidity_datasets store timeline) = (n + n)%nat
    /\ (forall index sensorId,
          nth_error (JS.keys store) index = Some sensorId ->
          exists h c,
            nth_error (humidity_datasets store timeline) index = Some h
            /\ nth_error (humidity_datasets store timeline) (n + index)
               = Some c
            /\ label h = template (getSensorName sensorId) " - Humidity"
            /\ label c = template (getSensorName sensorId) " - CO₂"
            /\ yAxisID h = Some "y"
            /\ yAxisID c = Some "y1"
            /\ borderDash h = None
            /\ borderDash c = Some [5; 5])
    /\ (plain_ids store = true -> JS.keys store = first_seen store).
Proof.
  intros d store timeline n pass.
  split.
  { unfold pass. rewrite updateCharts_charts. fold store n.
    now destruct (n =? 0)%nat. }
  split; [apply humidity_datasets_spec|].
  split; [rewrite humidity_datasets_spec, length_app, !map_index_length;
          reflexivity|].
  split; [|apply keys_plain].
  intros index sensorId H.
  exists (humidity_dataset store timeline sensorId index),
    (co2_dataset store timeline sensorId index).
  repeat split; auto using humidity_dataset_at, co2_dataset_at.
Qed.

(** C9 as stated fails for an id that is an array index: within each group
    the datasets of sensor [7], seen second, come before those of the
    sensor seen first. *)
Lemma index_id_leads_each_group :
  let d :=
    run [reading_event "hvac_office_a1" 1000 21; reading_event "7" 2000 22]
      (constructed blank_page true true) in
  let store := sensorsData d in
  first_seen store = ["hvac_office_a1"; "7"]
  /\ option_map (fun c => map label (datasets c)) (charts_humidity (charts d))
     = Some [Text "7 - Humidity"; Text "Office A1 - Humidity";
             Text "7 - CO₂"; Text "Office A1 - CO₂"]
  /\ option_map (fun c => map label (datasets c)) (charts_humidity (charts d))
     <> Some (map (fun k => template (getSensorName k) " - Humidity")
                (first_seen store)
              ++ map (fun k => template (getSensorName k) " - CO₂")
                   (first_seen store)).
Proof.
  cbv zeta. split; [reflexivity|]. split; [reflexivity|].
  vm_compute. discriminate.
Qed.

(* ===================================================================== *)
(** ** Properties of the status display *)
(* ===================================================================== *)

Lemma select_config_unknown status :
  status <> "NORMAL" -> status <> "WARNING" -> status <> "CRITICAL" ->
  JS.inherited status = false ->
  select_config status = JS.get statusConfigs "NORMAL".
Proof.
  intros Hn Hw Hc Hi. unfold select_config, JS.get at 1. simpl.
  destruct (String.eqb_spec status "NORMAL"); [contradiction|].
  destruct (String.eqb_spec status "WARNING"); [contradiction|].
  destruct (String.eqb_spec status "CRITICAL"); [contradiction|].
  now rewrite Hi.
Qed.

Lemma updateSystemStatus_returns status d :
  fst (updateSystemStatus status d) = Returned tt.
Proof. reflexivity. Qed.

(** A status that is none of NORMAL, WARNING and CRITICAL and does not name
    a member of [Object.prototype], such as MALFUNCTION: the update returns
    normally and the status element, when the page has one, shows the
    NORMAL configuration; the rest of the object is untouched. *)
Theorem unknown_status_shows_normal :
  forall status d,
    status <> "NORMAL" -> status <> "WARNING" -> status <> "CRITICAL" ->
    JS.inherited status = false ->
    updateSystemStatus status d
    = (Returned tt,
       with_page
         (match systemStatus (page d) with
          | None => page d
          | Some _ => with_systemStatus (Some normal_view) (page d)
          end) d).
Proof.
  intros status d Hn Hw Hc Hi.
  unfold updateSystemStatus, modify_page, modify.
  now rewrite select_config_unknown.
Qed.

Lemma unknown_status_shows_normal_witness :
  "MALFUNCTION" <> "NORMAL" /\ "MALFUNCTION" <> "WARNING"
  /\ "MALFUNCTION" <> "CRITICAL" /\ JS.inherited "MALFUNCTION" = false
  /\ systemStatus
       (page (state_after
                (updateSystemStatus "MALFUNCTION"
                   (constructed
                      (with_systemStatus
                         (Some {| className := ""; innerHTML := "" |})
                         blank_page) true true))))
     = Some normal_view.
Proof.
  assert (H1 : "MALFUNCTION" <> "NORMAL") by discriminate.
  assert (H2 : "MALFUNCTION" <> "WARNING") by discriminate.
  assert (H3 : "MALFUNCTION" <> "CRITICAL") by discriminate.
  assert (H4 : JS.inherited "MALFUNCTION" = false) by reflexivity.
  repeat (split; [assumption|]).
  rewrite (@unknown_status_shows_normal "MALFUNCTION" _ H1 H2 H3 H4).
  reflexivity.
Defined.

(** C10. The fallback to the NORMAL configuration misses the statuses that
    name a member of [Object.prototype]: [statusConfigs['constructor']] is
    the inherited function, a truthy value, so [||] keeps it and the
    element is given the class, icon and text "undefined" instead of the
    NORMAL configuration. The update still returns normally. *)
Lemma inherited_status_shows_undefined :
  let d :=
    constructed
      (with_systemStatus (Some {| className := ""; innerHTML := "" |})
         blank_page) true true in
  let shown :=
    systemStatus (page (state_after (updateSystemStatus "constructor" d))) in
  "constructor" <> "NORMAL" /\ "constructor" <> "WARNING"
  /\ "constructor" <> "CRITICAL"
  /\ fst (updateSystemStatus "constructor" d) = Returned tt
  /\ shown = Some {| className := "undefined";
                     innerHTML := status_markup "undefined" "undefined" |}
  /\ shown <> Some normal_view.
Proof.
  cbv zeta.
  split; [discriminate|]. split; [discriminate|]. split; [discriminate|].
  split; [reflexivity|]. split; [reflexivity|]. vm_compute. discriminate.
Qed.

(* ===================================================================== *)
(** ** Properties of the liveness flag *)
(* ===================================================================== *)

Lemma updateConnectionStatus_page b d :
  state_after (updateConnectionStatus b d)
  = with_page (page (state_after (updateConnectionStatus b d))) d.
Proof. destruct d; reflexivity. Qed.

(** C5, as the code has it. A disconnected event makes the monitor STALE
    and issues no request. The health check runs every 30000 ms; a run that
    finds the monitor STALE issues one bulk resync (the two fetches), a run
    that finds it LIVE issues none, and neither changes the state of the
    monitor. A connected event makes the monitor LIVE at once, whatever
    requests are in flight, and the settling of a resync leaves the monitor's
    state as it is. None of these handlers raises. *)
Theorem liveness_monitor_transitions :
  forall d,
    let disconnected := dispatch Disconnect d in
    let ticked := dispatch HealthCheckTick d in
    let connected := dispatch Connect d in
    (liveness_of (state_after disconnected) = STALE
     /\ requests (state_after disconnected) = requests d
     /\ fst disconnected = Returned tt)
    /\ delay_ms startHealthCheck = 30000
    /\ (liveness_of (state_after ticked) = liveness_of d
        /\ requests (state_after ticked)
           = requests d
             ++ match liveness_of d with
                | STALE => [FetchSensors; FetchAlerts]
                | LIVE => []
                end
        /\ fst ticked = Returned tt)
    /\ (liveness_of (state_after connected) = LIVE
        /\ requests (state_after connected) = requests d
        /\ fst connected = Returned tt)
    /\ (forall f,
          liveness_of (state_after (dispatch (FetchesSettled f) d))
          = liveness_of d).
Proof.
  intros d. cbv zeta.
  split; [repeat split|]. split; [reflexivity|].
  split; [|split; [repeat split|]].
  - destruct d as [s [|] ch pg rq al]; simpl.
    + split; [reflexivity|]. split; [|reflexivity].
      unfold state_after. simpl. now rewrite app_nil_r.
    + split; [reflexivity|]. split; reflexivity.
  - intros f. unfold liveness_of. simpl.
    now rewrite (@loadInitialData_settled_frames _ isConnected f
                   (fun _ d => match d with Build_dashboard _ _ _ _ _ _ => eq_refl end)
                   (fun _ d => match d with Build_dashboard _ _ _ _ _ _ => eq_refl end)).
Qed.

(** C5 as stated fails: entering STALE issues no resync. The monitor is
    LIVE with the start-up resync as its only request; after the
    disconnected event it is STALE and the request log is unchanged. *)
Lemma disconnect_issues_no_resync :
  let d := run [Connect] (constructed blank_page true true) in
  let d' := state_after (dispatch Disconnect d) in
  liveness_of d = LIVE
  /\ liveness_of d' = STALE
  /\ requests d' = requests d
  /\ requests d' <> requests d ++ [FetchSensors; FetchAlerts].
Proof.
  cbv zeta.
  split; [reflexivity|]. split; [reflexivity|]. split; [reflexivity|].
  vm_compute. discriminate.
Qed.

(* ===================================================================== *)
(** ** Properties of malformed events *)
(* ===================================================================== *)






(** The alert path, on the modelled [addNewAlert]: an alert without a
    severity is added to the list before the handler raises. *)
Lemma alert_without_severity_raises a d :
  severity a = None ->
  handleNewAlert a d = (Threw JS.TypeError, with_alerts (a :: alerts d) d).
Proof.
  intros H. unfold handleNewAlert, addNewAlert, bind, modify. simpl.
  now rewrite H.
Qed.

(* ===================================================================== *)
(** ** Properties of the bulk resync *)
(* ===================================================================== *)

Section PresenceDetermined.

Lemma pd_ret {A} (a : A) : presence_determined (ret a).
Proof. split; intros; reflexivity. Qed.

Lemma pd_throw {A} (e : JS.exn) : presence_determined (@throw A e).
Proof. split; intros; reflexivity. Qed.

Lemma pd_bind {A B} (c : M A) (k : A -> M B) :
  presence_determined c -> (forall a, presence_determined (k a)) ->
  presence_determined (bind c k).
Proof.
  intros [Hc1 Hc2] Hk. split.
  - apply frames_bind; [exact Hc1|]. intros a. exact (proj1 (Hk a)).
  - intros d d' E. unfold bind.
    pose proof (Hc2 d d' E) as Ho.
    pose proof (Hc1 d) as P. pose proof (Hc1 d') as P'.
    unfold state_after in P, P'.
    destruct (c d) as [[a|e] d1], (c d') as [[a'|e'] d1']; simpl in *;
      try congruence.
    injection Ho as <-. apply (proj2 (Hk a)). congruence.
Qed.

Lemma pd_when (b : bool) (c : M unit) :
  presence_determined c -> presence_determined (when b c).
Proof. destruct b; simpl; auto using pd_ret. Qed.

Lemma pd_modify (g : dashboard -> dashboard) :
  (forall d, presence (g d) = presence d) -> presence_determined (modify g).
Proof. intros H. split; intros; [apply H|reflexivity]. Qed.

Lemma pd_forEach {A} (body : A -> M unit) (l : list A) :
  (forall a, presence_determined (body a)) ->
  presence_determined (forEach body l).
Proof. intros H. induction l; simpl; auto using pd_ret, pd_bind. Qed.

Lemma pd_forEach_index {A} (body : A -> nat -> M unit) (l : list A) i :
  (forall a j, presence_determined (body a j)) ->
  presence_determined (forEach_index body i l).
Proof.
  intros H. revert i. induction l; simpl; intros; auto using pd_ret, pd_bind.
Qed.

End PresenceDetermined.

Ltac pd_modify :=
  apply pd_modify; intros [? ? ? [[?|] [?|] ? ? ?] ? ?]; reflexivity.

Lemma renderSensors_unfold sensors d :
  renderSensors sensors d
  = match sensorsContainer (page d) with
    | None => (Returned tt, d)
    | Some _ =>
        forEach (fun sensor =>
                   sensorCard <- createSensorCard sensor ;;
                   appendChild_card sensorCard) sensors
          (with_page (with_sensorsContainer (Some []) (page d)) d)
    end.
Proof.
  unfold renderSensors, bind at 1, gets. simpl.
  destruct (sensorsContainer (page d)); reflexivity.
Qed.

Lemma renderBuildingMap_unfold sensors d :
  renderBuildingMap sensors d
  = match buildingMap (page d) with
    | None => (Returned tt, d)
    | Some _ =>
        forEach_index (fun sensor index =>
                         marker <- createSensorMarker sensor index ;;
                         appendChild_marker marker) 0 sensors
          (with_page (with_buildingMap (Some []) (page d)) d)
    end.
Proof.
  unfold renderBuildingMap, bind at 1, gets. simpl.
  destruct (buildingMap (page d)); reflexivity.
Qed.

Lemma renderSensors_pd sensors : presence_determined (renderSensors sensors).
Proof.
  assert (Hloop : presence_determined
            (forEach (fun sensor =>
                        sensorCard <- createSensorCard sensor ;;
                        appendChild_card sensorCard) sensors)).
  { apply pd_forEach. intros sensor. apply pd_bind.
    - unfold createSensorCard.
      destruct (latest_data sensor) as [[[m|] [s|]]|];
        auto using pd_ret, pd_throw.
    - intros c. unfold appendChild_card, modify_page. pd_modify. }
  destruct Hloop as [H1 H2].
  split.
  - intros d. rewrite renderSensors_unfold.
    destruct (sensorsContainer (page d)) eqn:E; [|reflexivity].
    rewrite H1. unfold presence, has_container, has_map. simpl. now rewrite E.
  - intros d d' Hp. rewrite !renderSensors_unfold.
    unfold presence, has_container, has_map in Hp.
    destruct (sensorsContainer (page d)) eqn:E,
      (sensorsContainer (page d')) eqn:E'; try discriminate; [|reflexivity].
    apply H2. unfold presence, has_container, has_map. simpl.
    injection Hp as Hm. now rewrite Hm.
Qed.

Lemma renderBuildingMap_pd sensors :
  presence_determined (renderBuildingMap sensors).
Proof.
  assert (Hloop : presence_determined
            (forEach_index (fun sensor index =>
                              marker <- createSensorMarker sensor index ;;
                              appendChild_marker marker) 0 sensors)).
  { apply pd_forEach_index. intros sensor j. apply pd_bind.
    - unfold createSensorMarker.
      destruct (sensor_coordinates sensor); auto using pd_ret, pd_throw.
    - intros c. unfold appendChild_marker, modify_page. pd_modify. }
  destruct Hloop as [H1 H2].
  split.
  - intros d. rewrite renderBuildingMap_unfold.
    destruct (buildingMap (page d)) eqn:E; [|reflexivity].
    rewrite H1. unfold presence, has_container, has_map. simpl. now rewrite E.
  - intros d d' Hp. rewrite !renderBuildingMap_unfold.
    unfold presence, has_container, has_map in Hp.
    destruct (buildingMap (page d)) eqn:E,
      (buildingMap (page d')) eqn:E'; try discriminate; [|reflexivity].
    apply H2. unfold presence, has_container, has_map. simpl.
    injection Hp as Hc. now rewrite Hc.
Qed.

Lemma render_pd sensors :
  presence_determined (renderSensors sensors ;; renderBuildingMap sensors).
Proof.
  apply pd_bind; intros; auto using renderSensors_pd, renderBuildingMap_pd.
Qed.

Lemma updateSystemStatus_pd status :
  presence_determined (updateSystemStatus status).
Proof.
  unfold updateSystemStatus, modify_page. apply pd_modify.
  intros [? ? ? [? ? [?|] ? ?] ? ?]; reflexivity.
Qed.

Lemma updateAlerts_pd a : presence_determined (updateAlerts a).
Proof. unfold updateAlerts. apply pd_modify. intros []; reflexivity. Qed.

Lemma handleInitialData_pd data : presence_determined (handleInitialData data).
Proof.
  unfold handleInitialData. apply pd_bind.
  { destruct (id_sensors data); auto using render_pd, pd_ret. }
  intros _. apply pd_bind.
  { destruct (id_system_status data) as [s|]; [|apply pd_ret].
    destruct (String.eqb s ""); auto using pd_ret, updateSystemStatus_pd. }
  intros _. destruct (id_alerts data); auto using pd_ret, updateAlerts_pd.
Qed.

(** The body of the [try] of [loadInitialData]. *)
Lemma settled_body_pd sensorsData alertsData :
  presence_determined
    (when (success sensorsData)
       (renderSensors (response_data sensorsData) ;;
        renderBuildingMap (response_data sensorsData)) ;;
     when (success alertsData) (updateAlerts (response_data alertsData))).
Proof.
  apply pd_bind; intros; apply pd_when; auto using render_pd, updateAlerts_pd.
Qed.

Lemma loadInitialData_settled_presence r d :
  presence (state_after (loadInitialData_settled r d)) = presence d.
Proof.
  unfold loadInitialData_settled.
  apply (@frames_try_catch _ presence).
  - destruct r; [apply frames_throw|]. exact (proj1 (settled_body_pd _ _)).
  - intros e d0. destruct d0 as [? ? ? [[?|] [?|] ? ? ?] ? ?]; reflexivity.
Qed.

(* ===================================================================== *)
(** ** Rendering the cards and the map *)
(* ===================================================================== *)

Lemma createSensorCard_card_of sensor d :
  createSensorCard sensor d
  = (match card_of sensor with
     | Some c => Returned c
     | None => Threw JS.TypeError
     end, d).
Proof.
  unfold card_of, createSensorCard.
  destruct (latest_data sensor) as [[[m|] [s|]]|]; reflexivity.
Qed.

Lemma createSensorMarker_marker_of sensor index d :
  createSensorMarker sensor index d
  = (match marker_of sensor index with
     | Some m => Returned m
     | None => Threw JS.TypeError
     end, d).
Proof.
  unfold marker_of, createSensorMarker.
  destruct (sensor_coordinates sensor); reflexivity.
Qed.

Lemma marker_of_coordinates sensor index :
  marker_of sensor index
  = match sensor_coordinates sensor with
    | Some c => Some {| marker_x := coord_x c; marker_y := coord_y c;
                        marker_title := name sensor;
                        marker_number := (index + 1)%nat;
                        marker_target := sensor_id sensor |}
    | None => None
    end.
Proof.
  unfold marker_of, createSensorMarker.
  destruct (sensor_coordinates sensor); reflexivity.
Qed.

(** The loop of [renderSensors], from a container holding [cs]. *)
Lemma card_loop sensors : forall d cs,
  sensorsContainer (page d) = Some cs ->
  forEach (fun sensor =>
             sensorCard <- createSensorCard sensor ;;
             appendChild_card sensorCard) sensors d
  = (if all_cards_build sensors then Returned tt else Threw JS.TypeError,
     with_page
       (with_sensorsContainer (Some (cs ++ cards_built sensors)) (page d)) d).
Proof.
  induction sensors as [|sensor rest IH]; intros d cs H.
  - simpl. rewrite app_nil_r.
    destruct d as [s c ch [sc bm ss ri nt] rq al]. simpl in *. now subst.
  - simpl forEach. unfold bind at 1. unfold bind at 1.
    rewrite createSensorCard_card_of. simpl.
    destruct (card_of sensor) as [c|].
    + unfold appendChild_card, modify_page, modify.
      rewrite (IH _ (cs ++ [c])).
      * rewrite <- app_assoc.
        destruct d as [s c0 ch [sc bm ss ri nt] rq al]. reflexivity.
      * simpl. now rewrite H.
    + rewrite app_nil_r.
      destruct d as [s c ch [sc bm ss ri nt] rq al]. simpl in *. now subst.
Qed.

Lemma renderSensors_result sensors d :
  renderSensors sensors d
  = match sensorsContainer (page d) with
    | None => (Returned tt, d)
    | Some _ =>
        (if all_cards_build sensors then Returned tt else Threw JS.TypeError,
         with_page
           (with_sensorsContainer (Some (cards_built sensors)) (page d)) d)
    end.
Proof.
  rewrite renderSensors_unfold.
  destruct (sensorsContainer (page d)) eqn:E; [|reflexivity].
  rewrite (card_loop sensors _ (cs := [])) by reflexivity.
  simpl. destruct d as [s c ch [sc bm ss ri nt] rq al]. reflexivity.
Qed.

Lemma marker_loop sensors : forall index d ms,
  buildingMap (page d) = Some ms ->
  forEach_index (fun sensor index =>
                   marker <- createSensorMarker sensor index ;;
                   appendChild_marker marker) index sensors d
  = (if all_markers_build sensors then Returned tt else Threw JS.TypeError,
     with_page
       (with_buildingMap (Some (ms ++ markers_built index sensors)) (page d))
       d).
Proof.
  induction sensors as [|sensor rest IH]; intros index d ms H.
  - simpl. rewrite app_nil_r.
    destruct d as [s c ch [sc bm ss ri nt] rq al]. simpl in *. now subst.
  - simpl forEach_index. unfold bind at 1. unfold bind at 1.
    rewrite createSensorMarker_marker_of. simpl.
    rewrite marker_of_coordinates.
    destruct (sensor_coordinates sensor) as [c|]; simpl.
    + unfold appendChild_marker, modify_page, modify.
      rewrite (IH _ _ (ms ++ [ {| marker_x := coord_x c;
                                  marker_y := coord_y c;
                                  marker_title := name sensor;
                                  marker_number := (index + 1)%nat;
                                  marker_target := sensor_id sensor |} ])).
      * rewrite <- app_assoc.
        destruct d as [s c0 ch [sc bm ss ri nt] rq al]. reflexivity.
      * simpl. now rewrite H.
    + rewrite app_nil_r.
      destruct d as [s c ch [sc bm ss ri nt] rq al]. simpl in *. now subst.
Qed.

Lemma renderBuildingMap_result sensors d :
  renderBuildingMap sensors d
  = match buildingMap (page d) with
    | None => (Returned tt, d)
    | Some _ =>
        (if all_markers_build sensors then Returned tt
         else Threw JS.TypeError,
         with_page
           (with_buildingMap (Some (markers_built 0 sensors)) (page d)) d)
    end.
Proof.
  rewrite renderBuildingMap_unfold.
  destruct (buildingMap (page d)) eqn:E; [|reflexivity].
  rewrite (marker_loop sensors 0 _ (ms := [])) by reflexivity.
  simpl. destruct d as [s c ch [sc bm ss ri nt] rq al]. reflexivity.
Qed.

(** What a card shows of its sensor. *)
Lemma card_of_Some sensor c :
  card_of sensor = Some c ->
  card_sensor_id c = sensor_id sensor
  /\ card_name c = name sensor
  /\ card_values c
     = match latest_data sensor with
       | Some {| sd_data := Some m; sd_system_status := Some s |} =>
           Some {| shown := m; status_text_of := Some s;
                   status_class_of := s |}
       | _ => None
       end.
Proof.
  unfold card_of, createSensorCard.
  destruct (latest_data sensor) as [[[m|] [s|]]|]; simpl; intros H;
    try discriminate; injection H as <-; auto.
Qed.

Lemma cards_built_all sensors :
  all_cards_build sensors = true ->
  Forall2 (fun sensor c => card_of sensor = Some c) sensors
    (cards_built sensors).
Proof.
  induction sensors as [|sensor rest IH]; simpl; intros H; [constructor|].
  destruct (card_of sensor) as [c|] eqn:E; [|discriminate].
  constructor; auto.
Qed.

Lemma first_failing_card sensors :
  all_cards_build sensors = false ->
  exists before failing after,
    sensors = before ++ failing :: after
    /\ all_cards_build before = true
    /\ card_of failing = None
    /\ cards_built sensors = cards_built before.
Proof.
  induction sensors as [|sensor rest IH]; simpl; intros H; [discriminate|].
  destruct (card_of sensor) as [c|] eqn:E.
  - destruct (IH H) as (before & failing & after & -> & Hb & Hf & Hc).
    exists (sensor :: before), failing, after. simpl. rewrite E, Hc. auto.
  - exists [], sensor, rest. auto.
Qed.

Lemma markers_built_all sensors : forall index,
  all_markers_build sensors = true ->
  map marker_number (markers_built index sensors)
  = seq (index + 1) (List.length sensors)
  /\ map marker_target (markers_built index sensors) = map sensor_id sensors
  /\ map marker_title (markers_built index sensors) = map name sensors.
Proof.
  induction sensors as [|sensor rest IH]; simpl; intros index H; [auto|].
  rewrite marker_of_coordinates.
  destruct (sensor_coordinates sensor) as [c|]; [|discriminate].
  destruct (IH (S index) H) as (Hn & Ht & Hl). simpl.
  rewrite Hn, Ht, Hl. repeat split.
Qed.

Lemma first_failing_marker sensors : forall index,
  all_markers_build sensors = false ->
  exists before failing after,
    sensors = before ++ failing :: after
    /\ all_markers_build before = true
    /\ sensor_coordinates failing = None
    /\ markers_built index sensors = markers_built index before.
Proof.
  induction sensors as [|sensor rest IH]; simpl; intros index H;
    [discriminate|].
  rewrite marker_of_coordinates.
  destruct (sensor_coordinates sensor) as [c|] eqn:E.
  - destruct (IH (S index) H) as (before & failing & after & -> & Hb & Hf & Hc).
    exists (sensor :: before), failing, after. simpl.
    rewrite marker_of_coordinates, E, Hc. auto.
  - exists [], sensor, rest. auto.
Qed.

Lemma cards_built_length sensors :
  all_cards_build sensors = true ->
  List.length (cards_built sensors) = List.length sensors.
Proof.
  intros H. apply cards_built_all in H.
  induction H; simpl; auto.
Qed.

Lemma card_of_None sensor :
  card_of sensor = None <->
  exists m, latest_data sensor
            = Some {| sd_data := Some m; sd_system_status := None |}.
Proof.
  unfold card_of, createSensorCard.
  destruct (latest_data sensor) as [[[m|] [s|]]|]; simpl; split;
    try discriminate; try (intros [m' H]; discriminate); eauto.
Qed.

(** The page a bulk payload leaves, step by step. *)
Lemma render_result sensors d :
  (renderSensors sensors ;; renderBuildingMap sensors) d
  = match renderSensors sensors d with
    | (Returned _, d') => renderBuildingMap sensors d'
    | (Threw e, d') => (Threw e, d')
    end.
Proof. reflexivity. Qed.

Ltac render_steps Ecb Emb :=
  repeat (rewrite ?renderSensors_result, ?renderBuildingMap_result;
          simpl; rewrite ?Ecb, ?Emb; simpl).

(** X5. Handling the same bulk payload a second time leaves the page as
    the first handling left it, cards, markers and status element alike,
    and ends the same way: no card or marker is duplicated. *)
Theorem bulk_payload_replay_keeps_page data d :
  let d1 := state_after (handleInitialData data d) in
  page (state_after (handleInitialData data d1)) = page d1
  /\ fst (handleInitialData data d1) = fst (handleInitialData data d).
Proof.
  cbv zeta. unfold handleInitialData, updateSystemStatus, updateAlerts,
    modify_page, modify.
  destruct d as [s c ch [sc bm ss ri nt] rq al].
  destruct (id_sensors data) as [sensors|].
  - destruct (all_cards_build sensors) eqn:Ecb;
      destruct (all_markers_build sensors) eqn:Emb;
      destruct (id_system_status data) as [status|];
      destruct (id_alerts data) as [a|];
      try destruct (String.eqb status "");
      unfold bind, state_after, ret;
      destruct sc, bm, ss; render_steps Ecb Emb; auto.
  - destruct (id_system_status data) as [status|];
      destruct (id_alerts data) as [a|];
      try destruct (String.eqb status "");
      unfold bind, state_after, ret; destruct ss; simpl; auto.
Qed.



(** X1. On a page that has the cards container, when every sensor's card
    can be made, [renderSensors] returns normally and the container holds
    one card per sensor of the payload, in payload order, whatever it held
    before: each card carries its sensor's id and name, and shows data
    exactly when the sensor's latest data has measurements. *)
Theorem renderSensors_replaces_cards :
  forall sensors d old,
    sensorsContainer (page d) = Some old ->
    all_cards_build sensors = true ->
    exists cards,
      renderSensors sensors d
      = (Returned tt,
         with_page (with_sensorsContainer (Some cards) (page d)) d)
      /\ Forall2
           (fun sensor c =>
              card_sensor_id c = sensor_id sensor
              /\ card_name c = name sensor
              /\ card_values c
                 = match latest_data sensor with
                   | Some {| sd_data := Some m; sd_system_status := Some s |} =>
                       Some {| shown := m; status_text_of := Some s;
                               status_class_of := s |}
                   | _ => None
                   end)
           sensors cards.
Proof.
  intros sensors d old Hc Hall.
  exists (cards_built sensors). split.
  - now rewrite renderSensors_result, Hc, Hall.
  - apply cards_built_all in Hall.
    induction Hall; constructor; auto using card_of_Some.
Qed.

Lemma renderSensors_replaces_cards_witness :
  let d := state_after (renderSensors [reception_sensor]
                          (constructed full_page true true)) in
  all_cards_build [kitchen_sensor; reception_sensor] = true
  /\ exists cards,
       sensorsContainer
         (page (state_after
                  (renderSensors [kitchen_sensor; reception_sensor] d)))
       = Some cards
       /\ Forall2 (fun sensor c => card_sensor_id c = sensor_id sensor)
            [kitchen_sensor; reception_sensor] cards.
Proof.
  cbv zeta. split; [reflexivity|].
  destruct (@renderSensors_replaces_cards [kitchen_sensor; reception_sensor]
              (state_after (renderSensors [reception_sensor]
                              (constructed full_page true true)))
              _ eq_refl eq_refl) as (cards & E & H).
  exists cards. split; [now rewrite E|].
  clear E. induction H; constructor; tauto.
Defined.

(** X2. When a sensor of the payload has measurements but no system
    status, [renderSensors] raises a TypeError at the first such sensor:
    the container has been emptied and holds the cards of the sensors
    before it, and none for it or the sensors after it. *)
Theorem renderSensors_stops_at_first_failure :
  forall sensors d old,
    sensorsContainer (page d) = Some old ->
    all_cards_build sensors = false ->
    exists before failing after m,
      sensors = before ++ failing :: after
      /\ all_cards_build before = true
      /\ latest_data failing
         = Some {| sd_data := Some m; sd_system_status := None |}
      /\ renderSensors sensors d
         = (Threw JS.TypeError,
            with_page
              (with_sensorsContainer (Some (cards_built before)) (page d)) d)
      /\ List.length (cards_built before) = List.length before.
Proof.
  intros sensors d old Hc Hall.
  destruct (first_failing_card sensors Hall)
    as (before & failing & after & E & Hb & Hf & Hcards).
  apply card_of_None in Hf. destruct Hf as [m Hf].
  exists before, failing, after, m.
  repeat split; auto using cards_built_length.
  now rewrite renderSensors_result, Hc, Hall, Hcards.
Qed.

Lemma renderSensors_stops_at_first_failure_witness :
  all_cards_build [kitchen_sensor; statusless_sensor; reception_sensor] = false
  /\ threw (renderSensors [kitchen_sensor; statusless_sensor; reception_sensor]
              (constructed full_page true true)) = true.
Proof.
  split; [reflexivity|].
  destruct (@renderSensors_stops_at_first_failure
              [kitchen_sensor; statusless_sensor; reception_sensor]
              (constructed full_page true true) _ eq_refl eq_refl)
    as (before & failing & after & m & _ & _ & _ & E & _).
  now rewrite E.
Defined.

(** X3. On a page that has the building map, when every sensor has
    coordinates, [renderBuildingMap] returns normally and the map holds one
    marker per sensor of the payload, in payload order, whatever it held
    before: the markers are numbered 1, 2, ..., titled with the sensor
    names, and each targets its own sensor's card. *)
Theorem renderBuildingMap_numbers_markers :
  forall sensors d old,
    buildingMap (page d) = Some old ->
    all_markers_build sensors = true ->
    exists markers,
      renderBuildingMap sensors d
      = (Returned tt, with_page (with_buildingMap (Some markers) (page d)) d)
      /\ map marker_number markers = seq 1 (List.length sensors)
      /\ map marker_target markers = map sensor_id sensors
      /\ map marker_title markers = map name sensors.
Proof.
  intros sensors d old Hm Hall.
  exists (markers_built 0 sensors). split.
  - now rewrite renderBuildingMap_result, Hm, Hall.
  - apply (markers_built_all sensors 0 Hall).
Qed.

Lemma renderBuildingMap_numbers_markers_witness :
  all_markers_build [kitchen_sensor; reception_sensor] = true
  /\ exists markers,
       buildingMap
         (page (state_after
                  (renderBuildingMap [kitchen_sensor; reception_sensor]
                     (constructed full_page true true))))
       = Some markers
       /\ map marker_number markers = [1%nat; 2%nat].
Proof.
  split; [reflexivity|].
  destruct (@renderBuildingMap_numbers_markers
              [kitchen_sensor; reception_sensor]
              (constructed full_page true true) _ eq_refl eq_refl)
    as (markers & E & H & _).
  exists markers. split; [now rewrite E|exact H].
Defined.

(** X4. When rendering a bulk payload raises, because a card cannot be
    made on a page with the cards container, or because a sensor has no
    coordinates on a page with the map, [handleInitialData] raises a
    TypeError and the status element is left as it was even though the
    payload carries a status; in the first case the map is left as it was
    too. *)
Theorem failed_render_skips_the_rest :
  forall data d sensors,
    id_sensors data = Some sensors ->
    (has_container d = true /\ all_cards_build sensors = false)
    \/ (has_map d = true /\ all_markers_build sensors = false) ->
    let r := handleInitialData data d in
    fst r = Threw JS.TypeError
    /\ systemStatus (page (state_after r)) = systemStatus (page d)
    /\ (has_container d = true -> all_cards_build sensors = false ->
        buildingMap (page (state_after r)) = buildingMap (page d)).
Proof.
  intros data d sensors Hs Hfail. cbv zeta.
  unfold handleInitialData, updateSystemStatus, updateAlerts,
    modify_page, modify. rewrite Hs.
  unfold has_container, has_map in *.
  destruct d as [s c ch [sc bm ss ri nt] rq al]. simpl in *.
  destruct (all_cards_build sensors) eqn:Ecb;
    destruct (all_markers_build sensors) eqn:Emb;
    destruct sc, bm;
    try (destruct Hfail as [[? ?]|[? ?]]; discriminate);
    unfold bind, state_after, ret; render_steps Ecb Emb;
    repeat split; auto; intros; discriminate.
Qed.

Lemma failed_render_skips_the_rest_witness :
  let data := {| id_sensors := Some [kitchen_sensor; unplaced_sensor];
                 id_system_status := Some "CRITICAL";
                 id_alerts := None |} in
  let d := constructed full_page true true in
  (has_map d = true /\ all_markers_build [kitchen_sensor; unplaced_sensor] = false)
  /\ fst (handleInitialData data d) = Threw JS.TypeError
  /\ systemStatus (page (state_after (handleInitialData data d)))
     = systemStatus full_page.
Proof.
  cbv zeta.
  assert (H : has_map (constructed full_page true true) = true
              /\ all_markers_build [kitchen_sensor; unplaced_sensor] = false)
    by (split; reflexivity).
  split; [exact H|].
  destruct (@failed_render_skips_the_rest
              {| id_sensors := Some [kitchen_sensor; unplaced_sensor];
                 id_system_status := Some "CRITICAL";
                 id_alerts := None |}
              (constructed full_page true true)
              [kitchen_sensor; unplaced_sensor] eq_refl (or_intror H))
    as (H1 & H2 & _).
  split; [exact H1|exact H2].
Defined.

(** X6. On a page that has none of the cards container, the building map
    and the status element, [handleInitialData] leaves the page as it was
    for every payload of sensors and status without alerts, and returns
    normally, even when the payload has sensors that could not be
    rendered. *)
Theorem bulk_payload_without_sinks :
  forall data d,
    sensorsContainer (page d) = None ->
    buildingMap (page d) = None ->
    systemStatus (page d) = None ->
    id_alerts data = None ->
    handleInitialData data d = (Returned tt, d).
Proof.
  intros data d Hc Hm Hs Ha.
  unfold handleInitialData, updateSystemStatus, updateAlerts,
    modify_page, modify. rewrite Ha.
  destruct d as [s c ch [sc bm ss ri nt] rq al]. simpl in *. subst.
  destruct (id_sensors data) as [sensors|];
    destruct (id_system_status data) as [status|];
    try destruct (String.eqb status "");
    unfold bind, state_after, ret;
    repeat (rewrite ?renderSensors_result, ?renderBuildingMap_result; simpl);
    auto.
Qed.

Lemma bulk_payload_without_sinks_witness :
  let data := {| id_sensors := Some [statusless_sensor; unplaced_sensor];
                 id_system_status := Some "WARNING";
                 id_alerts := None |} in
  fst (handleInitialData data (constructed blank_page true true))
  = Returned tt.
Proof.
  cbv zeta.
  rewrite (@bulk_payload_without_sinks
             {| id_sensors := Some [statusless_sensor; unplaced_sensor];
                id_system_status := Some "WARNING";
                id_alerts := None |}
             (constructed blank_page true true)
             eq_refl eq_refl eq_refl eq_refl).
  reflexivity.
Defined.

(* ===================================================================== *)
(** ** A reading event, the cards and the charts *)
(* ===================================================================== *)

Lemma alter_card_same sensorId cards :
  alter_card sensorId (fun b => b) cards = cards.
Proof.
  induction cards as [|c cards IH]; simpl; [reflexivity|].
  destruct (owns_elements sensorId c); [|now rewrite IH].
  destruct c as [i n [b|]]; reflexivity.
Qed.

Lemma alter_card_twice sensorId f g cards :
  alter_card sensorId g (alter_card sensorId f cards)
  = alter_card sensorId (fun b => g (f b)) cards.
Proof.
  induction cards as [|c cards IH]; simpl; [reflexivity|].
  destruct (owns_elements sensorId c) eqn:E; simpl.
  - unfold owns_elements in *. simpl.
    destruct c as [i n [b|]]; simpl in *; [|discriminate].
    now rewrite E.
  - now rewrite E, IH.
Qed.

Lemma alter_card_length sensorId f cards :
  List.length (alter_card sensorId f cards) = List.length cards.
Proof.
  induction cards as [|c cards IH]; simpl; [reflexivity|].
  destruct (owns_elements sensorId c); simpl; auto.
Qed.

Lemma alter_card_ids sensorId f cards :
  map card_sensor_id (alter_card sensorId f cards) = map card_sensor_id cards.
Proof.
  induction cards as [|c cards IH]; simpl; [reflexivity|].
  destruct (owns_elements sensorId c); simpl; [reflexivity|now rewrite IH].
Qed.

Lemma alter_card_others sensorId f cards : forall i c,
  nth_error cards i = Some c ->
  owns_elements sensorId c = false ->
  nth_error (alter_card sensorId f cards) i = Some c.
Proof.
  induction cards as [|c0 cards IH]; intros [|i] c H Ho; simpl in *;
    try discriminate.
  - injection H as ->. now rewrite Ho.
  - destruct (owns_elements sensorId c0); simpl; auto.
Qed.

Lemma alter_card_after_first sensorId f cards : forall i c,
  nth_error cards i = Some c ->
  (exists j c0, (j < i)%nat /\ nth_error cards j = Some c0
                /\ owns_elements sensorId c0 = true) ->
  nth_error (alter_card sensorId f cards) i = Some c.
Proof.
  induction cards as [|c0 cards IH]; intros [|i] c H (j & c1 & Hj & Hn & Ho);
    simpl in *; try discriminate; try lia.
  destruct (owns_elements sensorId c0) eqn:E; simpl; [assumption|].
  destruct j as [|j]; simpl in Hn.
  - injection Hn as ->. congruence.
  - apply IH; [assumption|]. exists j, c1. repeat split; [lia|assumption..].
Qed.

Lemma alter_card_names sensorId f cards :
  map card_name (alter_card sensorId f cards) = map card_name cards.
Proof.
  induction cards as [|c cards IH]; simpl; [reflexivity|].
  destruct (owns_elements sensorId c); simpl; [reflexivity|now rewrite IH].
Qed.

(** What [updateSensorCard] does to the page and how it ends. *)
Lemma updateSensorCard_result sensorId sensorData d :
  exists g,
    updateSensorCard sensorId sensorData d
    = (if elements_exist sensorId d
       then match sensorData with
            | Some {| sd_data := Some _; sd_system_status := Some _ |} =>
                Returned tt
            | _ => Threw JS.TypeError
            end
       else Returned tt,
       with_page
         (with_sensorsContainer
            (option_map (alter_card sensorId g) (sensorsContainer (page d)))
            (page d)) d).
Proof.
  unfold updateSensorCard, bind, gets. simpl.
  assert (Hid : d = with_page
                      (with_sensorsContainer
                         (option_map (alter_card sensorId (fun b => b))
                            (sensorsContainer (page d))) (page d)) d).
  { destruct d as [s c ch [[cs|] bm ss ri nt] rq al]; simpl;
      now rewrite ?alter_card_same. }
  destruct (elements_exist sensorId d) eqn:E.
  - destruct sensorData as [[[m|] st]|];
      try (exists (fun b => b); unfold throw; now rewrite <- Hid).
    unfold alter_elements, modify_page, modify. simpl.
    destruct st as [s|]; simpl.
    + eexists.
      destruct d as [s0 c ch [[cs|] bm ss ri nt] rq al]; simpl;
        rewrite ?alter_card_twice; reflexivity.
    + eexists. unfold throw.
      destruct d as [s0 c ch [[cs|] bm ss ri nt] rq al]; simpl;
        rewrite ?alter_card_twice; reflexivity.
  - exists (fun b => b). unfold ret. now rewrite <- Hid.
Qed.

Lemma store_reading_returns ev d r :
  reading_literal ev = Some r ->
  JS.get (sensorsData d) (rt_sensor_id ev) <> JS.Inherited ->
  exists store',
    store_reading ev d = (Returned tt, with_sensorsData store' d)
    /\ JS.own store' (rt_sensor_id ev)
       = Some (JS.slice_last 50
                 (buffer_of (sensorsData d) (rt_sensor_id ev) ++ [r])).
Proof.
  intros Hr Hget. unfold JS.get, buffer_of in *. run_step. rewrite Hr.
  destruct (JS.own (sensorsData d) (rt_sensor_id ev)) as [b|] eqn:Eown;
    [|destruct (JS.inherited (rt_sensor_id ev)) eqn:Ei; [congruence|]];
    simpl; rewrite ?Eown, ?own_set_same; simpl; rewrite ?own_set_same; simpl;
    try match goal with
      | |- context [(50 <? ?n)%nat] => destruct (Nat.ltb_spec 50 n)
      end; simpl;
    eexists; (split; [destruct d; reflexivity|]);
    rewrite ?own_set_same; auto.
  now rewrite slice_last_all.
Qed.

Lemma store_reading_frames {X} (f : dashboard -> X) ev :
  (forall s d, f (with_sensorsData s d) = f d) -> frames f (store_reading ev).
Proof.
  intros H. unfold store_reading, create_buffer, new_reading, push, trim.
  repeat (apply frames_bind; [|intros]);
    repeat match goal with
      | |- frames _ (gets _) => apply frames_gets
      | |- frames _ (match ?x with _ => _ end) => destruct x
      | |- frames _ (when _ _) => apply frames_when
      | |- frames _ (bind _ _) => apply frames_bind; [|intros]
      | |- frames _ (modify _) => apply frames_modify; intros; apply H
      | |- frames _ (ret _) => apply frames_ret
      | |- frames _ (throw _) => apply frames_throw
      end.
Qed.

Lemma updateCharts_frames {X} (f : dashboard -> X) :
  (forall c d, f (with_charts c d) = f d) -> frames f updateCharts.
Proof.
  intros H. unfold updateCharts, updateTemperatureChart, updateHumidityChart.
  repeat match goal with
    | |- frames _ (gets _) => apply frames_gets
    | |- frames _ (match ?x with _ => _ end) => destruct x
    | |- frames _ (if ?x then _ else _) => destruct x
    | |- frames _ (bind _ _) => apply frames_bind; [|intros]
    | |- frames _ (modify _) => apply frames_modify; intros; apply H
    | |- frames _ (ret _) => apply frames_ret
    end.
Qed.

Lemma updateCharts_returns d : fst (updateCharts d) = Returned tt.
Proof.
  unfold updateCharts, updateTemperatureChart, updateHumidityChart, bind,
    gets, modify, ret. simpl.
  destruct (List.length (JS.keys (sensorsData d)) =? 0)%nat; [reflexivity|].
  simpl. destruct (charts_temperature (charts d)); simpl;
    destruct (charts_humidity (charts d)); reflexivity.
Qed.

Lemma own_Some_keys {A} (o : JS.object A) k a :
  JS.own o k = Some a -> JS.keys o <> [].
Proof.
  intros H E. apply own_In in H.
  assert (Hk : In k (JS.keys o)).
  { apply keys_In. apply in_map_iff. exists (k, a). auto. }
  rewrite E in Hk. destruct Hk.
Qed.

(** The page after a reading event: the handler alters at most the first
    card that owns the sensor's elements. *)
Lemma handleRealtimeData_page ev d :
  exists g,
    page (state_after (handleRealtimeData ev d))
    = with_sensorsContainer
        (option_map (alter_card (rt_sensor_id ev) g)
           (sensorsContainer (page d))) (page d).
Proof.
  unfold handleRealtimeData, bind, state_after.
  pose proof (@store_reading_frames _ page ev
                (fun s d => match d with Build_dashboard _ _ _ _ _ _ => eq_refl end)
                d) as Hp.
  unfold state_after in Hp.
  destruct (store_reading ev d) as [[u|e] d1]; simpl in *.
  - destruct (updateSensorCard_result (rt_sensor_id ev) (rt_data ev) d1)
      as [g E].
    rewrite E. exists g. cbv beta iota.
    destruct (if elements_exist (rt_sensor_id ev) d1
              then match rt_data ev with
                   | Some {| sd_data := Some _; sd_system_status := Some _ |} =>
                       Returned tt
                   | _ => Threw JS.TypeError
                   end
              else Returned tt).
    + rewrite <- Hp.
      apply (@updateCharts_frames _ page
               (fun c d => match d with Build_dashboard _ _ _ _ _ _ => eq_refl end)).
    + simpl. now rewrite Hp.
  - exists (fun b => b). rewrite Hp.
    destruct (page d) as [[cs|] bm ss ri nt]; simpl;
      now rewrite ?alter_card_same.
Qed.

(** X7. A reading event never adds, removes, reorders or renames cards:
    the only card it can alter is the first card that shows data for the
    event's sensor. A card of another sensor, a card rendered without
    data, and every card that comes after a card showing data for the
    event's sensor stay as they are, and so do the building map, the
    status element, the connection indicator and the notifications. *)
Theorem reading_event_touches_one_card :
  forall ev d,
    let d' := state_after (handleRealtimeData ev d) in
    option_map (map card_sensor_id) (sensorsContainer (page d'))
    = option_map (map card_sensor_id) (sensorsContainer (page d))
    /\ option_map (map card_name) (sensorsContainer (page d'))
       = option_map (map card_name) (sensorsContainer (page d))
    /\ (forall cards cards' i c,
          sensorsContainer (page d) = Some cards ->
          sensorsContainer (page d') = Some cards' ->
          nth_error cards i = Some c ->
          owns_elements (rt_sensor_id ev) c = false
          \/ (exists j c0, (j < i)%nat /\ nth_error cards j = Some c0
                           /\ owns_elements (rt_sensor_id ev) c0 = true) ->
          nth_error cards' i = Some c)
    /\ buildingMap (page d') = buildingMap (page d)
    /\ systemStatus (page d') = systemStatus (page d)
    /\ realtimeIndicator (page d') = realtimeIndicator (page d)
    /\ notifications (page d') = notifications (page d).
Proof.
  intros ev d d'. destruct (handleRealtimeData_page ev d) as [g E].
  fold d' in E. rewrite E. simpl.
  split; [|split; [|split; [|auto]]].
  - destruct (sensorsContainer (page d)); simpl; [|reflexivity].
    now rewrite alter_card_ids.
  - destruct (sensorsContainer (page d)); simpl; [|reflexivity].
    now rewrite alter_card_names.
  - intros cards cards' i c Hc Hc' Hn Ho. rewrite Hc in Hc'. simpl in Hc'.
    injection Hc' as <-.
    destruct Ho as [Ho|Ho];
      [now apply alter_card_others|now apply alter_card_after_first].
Qed.

(** X8. A reading event that carries measurements and a system status,
    for a sensor id that does not name a member of [Object.prototype],
    never raises: the reading is stored at the tail of the sensor's buffer
    (trimmed to the last 50), and each chart the page has is rewritten
    with the timeline and the datasets of the store as it is after the
    event. *)
Theorem complete_reading_event_refreshes_charts :
  forall ev d,
    complete_event ev = true ->
    JS.get (sensorsData d) (rt_sensor_id ev) <> JS.Inherited ->
    let r := handleRealtimeData ev d in
    let store' := sensorsData (state_after r) in
    let timeline := uniqueTimestamps store' in
    fst r = Returned tt
    /\ (exists rd,
          reading_literal ev = Some rd
          /\ JS.own store' (rt_sensor_id ev)
             = Some (JS.slice_last 50
                       (buffer_of (sensorsData d) (rt_sensor_id ev) ++ [rd])))
    /\ charts (state_after r)
       = {| charts_temperature :=
              option_map
                (fun _ => {| labels := map LocaleTime timeline;
                             datasets := temperature_datasets store' timeline |})
                (charts_temperature (charts d));
            charts_humidity :=
              option_map
                (fun _ => {| labels := map LocaleTime timeline;
                             datasets := humidity_datasets store' timeline |})
                (charts_humidity (charts d)) |}.
Proof.
  intros ev d Hc Hget. cbv zeta.
  assert (Hdata : exists m s,
             rt_data ev = Some {| sd_data := Some m; sd_system_status := Some s |}).
  { unfold complete_event in Hc.
    destruct (rt_data ev) as [[[m|] [s|]]|]; try discriminate. eauto. }
  destruct Hdata as (m & s & Hdata).
  assert (Hr : exists rd, reading_literal ev = Some rd)
    by (unfold reading_literal; rewrite Hdata; simpl; eauto).
  destruct Hr as [rd Hr].
  destruct (store_reading_returns ev d Hr Hget) as (store1 & E1 & Hown).
  destruct (updateSensorCard_result (rt_sensor_id ev) (rt_data ev)
              (with_sensorsData store1 d)) as [g E2].
  rewrite Hdata in E2.
  assert (E2' : updateSensorCard (rt_sensor_id ev)
                  (Some {| sd_data := Some m; sd_system_status := Some s |})
                  (with_sensorsData store1 d)
                = (Returned tt,
                   with_page
                     (with_sensorsContainer
                        (option_map (alter_card (rt_sensor_id ev) g)
                           (sensorsContainer (page (with_sensorsData store1 d))))
                        (page (with_sensorsData store1 d)))
                     (with_sensorsData store1 d)))
    by (rewrite E2; now destruct (elements_exist _ _)).
  clear E2.
  set (d2 := with_page
               (with_sensorsContainer
                  (option_map (alter_card (rt_sensor_id ev) g)
                     (sensorsContainer (page (with_sensorsData store1 d))))
                  (page (with_sensorsData store1 d)))
               (with_sensorsData store1 d)) in *.
  assert (Hrun : handleRealtimeData ev d = updateCharts d2).
  { unfold handleRealtimeData, bind. rewrite E1, Hdata, E2'. reflexivity. }
  rewrite Hrun.
  assert (Hs2 : sensorsData d2 = store1) by (destruct d; reflexivity).
  assert (Hc2 : charts d2 = charts d) by (destruct d; reflexivity).
  assert (Hstore : sensorsData (state_after (updateCharts d2)) = store1)
    by (rewrite updateCharts_store; exact Hs2).
  split; [apply updateCharts_returns|]. split.
  - exists rd. split; [exact Hr|]. now rewrite Hstore.
  - rewrite Hstore.
    assert (Hk : JS.keys (sensorsData d2) <> [])
      by (rewrite Hs2; eapply own_Some_keys; eassumption).
    rewrite (updateCharts_pass d2 Hk). cbv zeta. now rewrite Hs2, Hc2.
Qed.

Lemma complete_reading_event_refreshes_charts_witness :
  let ev := {| rt_sensor_id := "hvac_kitchen"; rt_timestamp := 1000;
               rt_data := Some {| sd_data := Some sample_measurements;
                                  sd_system_status := Some "NORMAL" |} |} in
  let d := constructed full_page true true in
  complete_event ev = true
  /\ JS.get (sensorsData d) (rt_sensor_id ev) <> JS.Inherited
  /\ fst (handleRealtimeData ev d) = Returned tt.
Proof.
  cbv zeta.
  assert (H : JS.get (sensorsData (constructed full_page true true))
                "hvac_kitchen" <> JS.Inherited) by discriminate.
  split; [reflexivity|]. split; [exact H|].
  exact (proj1 (@complete_reading_event_refreshes_charts
                  {| rt_sensor_id := "hvac_kitchen"; rt_timestamp := 1000;
                     rt_data := Some {| sd_data := Some sample_measurements;
                                        sd_system_status := Some "NORMAL" |} |}
                  (constructed full_page true true) eq_refl H)).
Defined.

(** X9. A reading event that carries measurements but no system status,
    for a sensor whose card shows data and whose id does not name a member
    of [Object.prototype], raises a TypeError after the reading has been
    stored: the buffer has the new reading, the charts are not rewritten
    and still show the store as it was before. *)
Theorem statusless_reading_is_stored_not_charted :
  forall ev d m,
    rt_data ev = Some {| sd_data := Some m; sd_system_status := None |} ->
    elements_exist (rt_sensor_id ev) d = true ->
    JS.get (sensorsData d) (rt_sensor_id ev) <> JS.Inherited ->
    let r := handleRealtimeData ev d in
    fst r = Threw JS.TypeError
    /\ (exists rd,
          reading_literal ev = Some rd
          /\ JS.own (sensorsData (state_after r)) (rt_sensor_id ev)
             = Some (JS.slice_last 50
                       (buffer_of (sensorsData d) (rt_sensor_id ev) ++ [rd])))
    /\ charts (state_after r) = charts d.
Proof.
  intros ev d m Hdata Hel Hget. cbv zeta.
  assert (Hr : exists rd, reading_literal ev = Some rd)
    by (unfold reading_literal; rewrite Hdata; simpl; eauto).
  destruct Hr as [rd Hr].
  destruct (store_reading_returns ev d Hr Hget) as (store1 & E1 & Hown).
  destruct (updateSensorCard_result (rt_sensor_id ev) (rt_data ev)
              (with_sensorsData store1 d)) as [g E2].
  rewrite Hdata in E2.
  assert (Hel' : elements_exist (rt_sensor_id ev) (with_sensorsData store1 d)
                 = true) by (destruct d; exact Hel).
  rewrite Hel' in E2.
  unfold handleRealtimeData, bind. rewrite E1, Hdata, E2. simpl.
  split; [reflexivity|]. split.
  - exists rd. split; [exact Hr|]. destruct d; exact Hown.
  - destruct d; reflexivity.
Qed.

Lemma statusless_reading_is_stored_not_charted_witness :
  let ev := {| rt_sensor_id := "hvac_kitchen"; rt_timestamp := 1000;
               rt_data := Some {| sd_data := Some sample_measurements;
                                  sd_system_status := None |} |} in
  let d := state_after (renderSensors [kitchen_sensor]
                          (constructed full_page true true)) in
  elements_exist (rt_sensor_id ev) d = true
  /\ JS.get (sensorsData d) (rt_sensor_id ev) <> JS.Inherited
  /\ fst (handleRealtimeData ev d) = Threw JS.TypeError.
Proof.
  cbv zeta.
  assert (H : JS.get
                (sensorsData
                   (state_after (renderSensors [kitchen_sensor]
                                   (constructed full_page true true))))
                "hvac_kitchen" <> JS.Inherited) by discriminate.
  split; [reflexivity|]. split; [exact H|].
  exact (proj1 (@statusless_reading_is_stored_not_charted
                  {| rt_sensor_id := "hvac_kitchen"; rt_timestamp := 1000;
                     rt_data := Some {| sd_data := Some sample_measurements;
                                        sd_system_status := None |} |}
                  (state_after (renderSensors [kitchen_sensor]
                                  (constructed full_page true true)))
                  sample_measurements eq_refl eq_refl H)).
Defined.

(* ===================================================================== *)
(** ** The connection flag, the indicator and the requests over a feed *)
(* ===================================================================== *)

Lemma updateSensorCard_frames {X} (f : dashboard -> X) sensorId sensorData :
  (forall p d, f (with_page p d) = f d) ->
  frames f (updateSensorCard sensorId sensorData).
Proof.
  intros H d. unfold state_after.
  destruct (updateSensorCard_result sensorId sensorData d) as [g ->].
  apply H.
Qed.

Lemma handleRealtimeData_frames {X} (f : dashboard -> X) ev :
  (forall s d, f (with_sensorsData s d) = f d) ->
  (forall p d, f (with_page p d) = f d) ->
  (forall c d, f (with_charts c d) = f d) ->
  frames f (handleRealtimeData ev).
Proof.
  intros Hs Hp Hc. unfold handleRealtimeData.
  apply frames_bind; [now apply store_reading_frames|intros _].
  apply frames_bind; [now apply updateSensorCard_frames|intros _].
  now apply updateCharts_frames.
Qed.

Lemma handleNewAlert_frames {X} (f : dashboard -> X) a :
  (forall p d, f (with_page p d) = f d) ->
  (forall l d, f (with_alerts l d) = f d) ->
  frames f (handleNewAlert a).
Proof.
  intros Hp Ha. unfold handleNewAlert, addNewAlert.
  apply frames_bind; [apply frames_modify; intros; apply Ha|intros _].
  destruct (severity a); [now apply showNotification_frames|apply frames_throw].
Qed.

Lemma handleSystemStatusUpdate_frames {X} (f : dashboard -> X) s :
  (forall p d, f (with_page p d) = f d) ->
  frames f (handleSystemStatusUpdate s).
Proof.
  intros Hp. unfold handleSystemStatusUpdate.
  destruct s; [now apply updateSystemStatus_frames|apply frames_throw].
Qed.

Ltac field_frame :=
  intros ? [? ? ? ? ? ?]; reflexivity.

(** Only the connect and disconnect events write the connection flag. *)
Lemma dispatch_isConnected e d :
  isConnected (state_after (dispatch e d))
  = match e with
    | Connect => true
    | Disconnect => false
    | _ => isConnected d
    end.
Proof.
  destruct e; simpl.
  - reflexivity.
  - reflexivity.
  - apply handleInitialData_frames; field_frame.
  - apply handleRealtimeData_frames; field_frame.
  - apply handleNewAlert_frames; field_frame.
  - apply handleSystemStatusUpdate_frames; field_frame.
  - unfold healthCheck, loadInitialData, bind, gets, modify, ret, state_after.
    simpl. destruct (isConnected d) eqn:E; simpl; auto.
  - apply loadInitialData_settled_frames; field_frame.
Qed.


(** X10. After any feed the connection flag is what the last connect or
    disconnect event of the feed set, and what it was before the feed when
    there is none: no other event, and no failure of a handler, changes
    it. *)
Theorem connection_flag_follows_last_event :
  forall events d,
    isConnected (run events d) = connection_after (isConnected d) events.
Proof.
  induction events as [|e events IH]; intros d; [reflexivity|].
  simpl run. rewrite IH, dispatch_isConnected. now destruct e.
Qed.


Lemma handleInitialData_indicator data d :
  realtimeIndicator (page (state_after (handleInitialData data d)))
  = realtimeIndicator (page d)
  /\ notifications (page (state_after (handleInitialData data d)))
     = notifications (page d).
Proof.
  unfold handleInitialData, updateSystemStatus, updateAlerts,
    modify_page, modify.
  destruct d as [s c ch [sc bm ss ri nt] rq al].
  destruct (id_sensors data) as [sensors|].
  - destruct (all_cards_build sensors) eqn:Ecb;
      destruct (all_markers_build sensors) eqn:Emb;
      destruct (id_system_status data) as [status|];
      destruct (id_alerts data) as [a|];
      try destruct (String.eqb status "");
      unfold bind, state_after, ret;
      destruct sc, bm, ss; render_steps Ecb Emb; auto.
  - destruct (id_system_status data) as [status|];
      destruct (id_alerts data) as [a|];
      try destruct (String.eqb status "");
      unfold bind, state_after, ret; destruct ss; simpl; auto.
Qed.

(** How the answer to the two fetches ends and what it notifies. *)
Lemma loadInitialData_settled_result r d :
  let failed :=
    match r with
    | Rejected => true
    | Bodies sensorsData alertsData =>
        success sensorsData
        && ((has_container d
             && negb (all_cards_build (response_data sensorsData)))
            || (has_map d
                && negb (all_markers_build (response_data sensorsData))))
    end in
  fst (loadInitialData_settled r d) = Returned tt
  /\ notifications (page (state_after (loadInitialData_settled r d)))
     = notifications (page d)
       ++ (if failed
           then [{| note_message := Plain "Failed to load initial data";
                    note_type := "error" |}]
           else [])
  /\ realtimeIndicator (page (state_after (loadInitialData_settled r d)))
     = realtimeIndicator (page d).
Proof.
  cbv zeta. unfold loadInitialData_settled, try_catch, showNotification,
    updateAlerts, modify_page, modify, when, has_container, has_map.
  destruct d as [s c ch [sc bm ss ri nt] rq al].
  destruct r as [|sd ad]; [simpl; auto|].
  destruct (all_cards_build (response_data sd)) eqn:Ecb;
    destruct (all_markers_build (response_data sd)) eqn:Emb;
    destruct (success sd), (success ad);
    unfold bind, state_after, ret; destruct sc, bm;
    render_steps Ecb Emb; rewrite ?app_nil_r; auto.
Qed.

(** Only the connect and disconnect events write the indicator. *)
Lemma dispatch_indicator e d :
  realtimeIndicator (page (state_after (dispatch e d)))
  = match e with
    | Connect =>
        option_map (fun _ => LiveConnection) (realtimeIndicator (page d))
    | Disconnect =>
        option_map (fun _ => Disconnected) (realtimeIndicator (page d))
    | _ => realtimeIndicator (page d)
    end.
Proof.
  destruct e as [| |idata|ev|a|system_status| |r]; simpl.
  - destruct d as [s c ch [sc bm ss [i|] nt] rq al]; reflexivity.
  - destruct d as [s c ch [sc bm ss [i|] nt] rq al]; reflexivity.
  - apply handleInitialData_indicator.
  - destruct (handleRealtimeData_page ev d) as [g ->]. reflexivity.
  - unfold handleNewAlert, addNewAlert, showNotification, modify_page,
      modify, bind, state_after. simpl.
    destruct (severity a); reflexivity.
  - destruct system_status as [st|]; [|reflexivity].
    unfold handleSystemStatusUpdate, updateSystemStatus, modify_page, modify,
      state_after. simpl.
    destruct (systemStatus (page d)); reflexivity.
  - unfold healthCheck, loadInitialData, bind, gets, modify, ret, state_after.
    simpl. destruct (isConnected d); reflexivity.
  - apply loadInitialData_settled_result.
Qed.

Lemma indicator_agrees_step e d :
  indicator_agrees d -> indicator_agrees (state_after (dispatch e d)).
Proof.
  unfold indicator_agrees.
  rewrite dispatch_indicator, dispatch_isConnected.
  destruct e; auto; destruct (realtimeIndicator (page d)); simpl; auto.
Qed.

Lemma indicator_agrees_run events : forall d,
  indicator_agrees d -> indicator_agrees (run events d).
Proof.
  induction events as [|e events IH]; intros d H; [assumption|].
  simpl. apply IH. now apply indicator_agrees_step.
Qed.

(** X12. From the first connect or disconnect event on, the connection
    indicator, when the page has one, shows the connection flag after
    every event of the feed: "Live Connection" exactly while the flag is
    set. *)
Theorem indicator_shows_connection :
  forall e events d,
    e = Connect \/ e = Disconnect ->
    indicator_agrees (run (e :: events) d).
Proof.
  intros e events d He. simpl. apply indicator_agrees_run.
  unfold indicator_agrees.
  rewrite dispatch_indicator, dispatch_isConnected.
  destruct He as [-> | ->]; destruct (realtimeIndicator (page d)); simpl; auto.
Qed.

Lemma indicator_shows_connection_witness :
  realtimeIndicator
    (page (run [Connect; reading_event "hvac_kitchen" 1000 21; Disconnect;
                HealthCheckTick]
             (constructed full_page true true)))
  = Some Disconnected.
Proof.
  pose proof (@indicator_shows_connection Connect
                [reading_event "hvac_kitchen" 1000 21; Disconnect;
                 HealthCheckTick]
                (constructed full_page true true) (or_introl eq_refl)) as H.
  unfold indicator_agrees in H.
  destruct (realtimeIndicator
              (page (run [Connect; reading_event "hvac_kitchen" 1000 21;
                          Disconnect; HealthCheckTick]
                       (constructed full_page true true)))) eqn:E;
    [|discriminate E].
  rewrite H. reflexivity.
Defined.

(** X13. The answer to the two fetches of [loadInitialData] never raises.
    When a fetch failed, or rendering the sensors raised, it shows the
    error notification "Failed to load initial data"; a pair of responses
    whose [success] is false changes nothing and notifies nothing. *)
Theorem settled_fetches_never_raise :
  forall r d,
    fst (loadInitialData_settled r d) = Returned tt
    /\ (match r with
        | Rejected => True
        | Bodies sensorsData alertsData =>
            success sensorsData = true
            /\ ((has_container d = true
                 /\ all_cards_build (response_data sensorsData) = false)
                \/ (has_map d = true
                    /\ all_markers_build (response_data sensorsData) = false))
        end ->
        notifications (page (state_after (loadInitialData_settled r d)))
        = notifications (page d)
          ++ [{| note_message := Plain "Failed to load initial data";
                 note_type := "error" |}])
    /\ (forall sensorsData alertsData,
          r = Bodies sensorsData alertsData ->
          success sensorsData = false -> success alertsData = false ->
          loadInitialData_settled r d = (Returned tt, d)).
Proof.
  intros r d.
  destruct (loadInitialData_settled_result r d) as (H1 & H2 & _).
  cbv zeta in H2.
  split; [exact H1|]. split.
  - intros Hf. rewrite H2. f_equal.
    destruct r as [|sd ad]; [reflexivity|].
    destruct Hf as [-> [[-> ->]|[-> ->]]]; simpl;
      [reflexivity|now rewrite orb_true_r].
  - intros sd ad -> Hs Ha.
    unfold loadInitialData_settled, try_catch, bind, when.
    now rewrite Hs, Ha.
Qed.

(* ===================================================================== *)
(** ** More on the timeline and the datasets *)
(* ===================================================================== *)

Lemma timeline_cases store t :
  stored_instant store t ->
  In t (uniqueTimestamps store)
  \/ (List.length (uniqueTimestamps store) = 20%nat
      /\ forall u, In u (uniqueTimestamps store) -> t < u).
Proof.
  intros Ht.
  set (distinct := Set_from [] (allTimestamps store)).
  assert (Hsorted : strictly_ascending distinct)
    by apply Set_from_sorted, sort_ascending_sorted.
  assert (Hlen : List.length (uniqueTimestamps store)
                 = Nat.min 20 (List.length distinct))
    by apply slice_last_length.
  destruct (slice_last_suffix 20 distinct) as [older Hsplit].
  fold (uniqueTimestamps store) in Hsplit.
  apply distinct_instants_In in Ht. fold distinct in Ht.
  rewrite Hsplit in Ht. apply in_app_or in Ht.
  destruct Ht as [Ht|Ht]; [right|now left].
  split.
  - assert (H : List.length distinct
                = (List.length older
                   + List.length (uniqueTimestamps store))%nat)
      by (rewrite Hsplit at 1; apply length_app).
    destruct older; [destruct Ht|]. simpl List.length in H. lia.
  - intros u Hu. unfold strictly_ascending in Hsorted.
    rewrite Hsplit in Hsorted.
    apply StronglySorted_app_inv in Hsorted.
    destruct Hsorted as (_ & _ & H). now apply H.
Qed.

Lemma timeline_stored store t :
  In t (uniqueTimestamps store) -> stored_instant store t.
Proof.
  intros H. apply distinct_instants_In. now apply slice_last_In in H.
Qed.

Lemma greatest_is_last (l : list Z) t :
  strictly_ascending l -> In t l -> (forall u, In u l -> u <= t) ->
  exists earlier, l = earlier ++ [t].
Proof.
  intros Hs Hin Hmax. apply in_split in Hin.
  destruct Hin as (l1 & l2 & ->). exists l1.
  destruct l2 as [|u l2]; [reflexivity|].
  unfold strictly_ascending in Hs.
  apply StronglySorted_app_inv in Hs. destruct Hs as (_ & Hs & _).
  apply StronglySorted_inv in Hs. destruct Hs as [_ Hall].
  rewrite Forall_forall in Hall.
  assert (t < u) by (apply Hall; now left).
  assert (u <= t) by (apply Hmax; apply in_or_app; right; right; now left).
  lia.
Qed.

(** X14. The most recent instant of the store is always the last instant
    of the timeline: the newest reading is never windowed out. *)
Theorem newest_instant_ends_timeline :
  forall (store : series_store) t,
    stored_instant store t ->
    (forall u, stored_instant store u -> u <= t) ->
    exists earlier, uniqueTimestamps store = earlier ++ [t].
Proof.
  intros store t Ht Hmax.
  apply greatest_is_last.
  - apply uniqueTimestamps_sorted.
  - destruct (@timeline_cases store t Ht) as [H|[Hlen Hlt]]; [assumption|].
    exfalso.
    destruct (uniqueTimestamps store) as [|u l] eqn:E; [discriminate|].
    assert (Hu : In u (uniqueTimestamps store)) by (rewrite E; now left).
    pose proof (Hmax u (@timeline_stored store u Hu)).
    assert (t < u) by (apply Hlt; now left). lia.
  - intros u Hu. apply Hmax. now apply timeline_stored.
Qed.

Lemma newest_instant_ends_timeline_witness :
  let store :=
    sensorsData (run [reading_event "hvac_kitchen" 3000 21;
                      reading_event "hvac_reception" 1000 22]
                   (constructed blank_page true true)) in
  stored_instant store 3000
  /\ exists earlier, uniqueTimestamps store = earlier ++ [3000].
Proof.
  cbv zeta.
  set (store := sensorsData (run [reading_event "hvac_kitchen" 3000 21;
                                  reading_event "hvac_reception" 1000 22]
                               (constructed blank_page true true))).
  assert (H1 : stored_instant store 3000).
  { exists "hvac_kitchen",
      [ {| timestamp := 3000; temperature := JS.Num 21;
           humidity := JS.Num 21; co2 := JS.Num 21 |} ],
      {| timestamp := 3000; temperature := JS.Num 21;
         humidity := JS.Num 21; co2 := JS.Num 21 |}.
    split; [left; reflexivity|]. split; [left; reflexivity|reflexivity]. }
  assert (H2 : forall u, stored_instant store u -> u <= 3000).
  { intros u (k & b & r & Hk & Hr & <-).
    destruct Hk as [Hk|[Hk|[]]]; injection Hk as <- <-;
      destruct Hr as [<-|[]]; simpl; lia. }
  split; [exact H1|].
  exact (@newest_instant_ends_timeline store 3000 H1 H2).
Defined.

Lemma filter_all {A} (p : A -> bool) (l : list A) :
  (forall x, In x l -> p x = true) -> filter p l = l.
Proof.
  induction l as [|a l IH]; simpl; intros H; [reflexivity|].
  rewrite (H a (or_introl eq_refl)). f_equal. auto.
Qed.

Lemma buffer_of_stored store sensorId d :
  In d (buffer_of store sensorId) -> stored_instant store (timestamp d).
Proof.
  unfold buffer_of. destruct (JS.own store sensorId) as [b|] eqn:E;
    [|intros []].
  intros H. exists sensorId, b, d. auto using own_In.
Qed.

(** X15. While the store holds no more than 20 distinct instants, every
    dataset of a sensor is its whole buffer, value by value in arrival
    order: nothing is windowed out, and readings that arrived out of order
    are charted in the order they arrived. *)
Theorem datasets_show_whole_buffers :
  forall (store : series_store) index sensorId,
    (forall l, NoDup l -> (forall t, In t l -> stored_instant store t) ->
       (List.length l <= 20)%nat) ->
    nth_error (JS.keys store) index = Some sensorId ->
    let timeline := uniqueTimestamps store in
    let buffer := buffer_of store sensorId in
    exists t h c,
      nth_error (temperature_datasets store timeline) index = Some t
      /\ nth_error (humidity_datasets store timeline) index = Some h
      /\ nth_error (humidity_datasets store timeline)
           (List.length (JS.keys store) + index) = Some c
      /\ data t = map temperature buffer
      /\ data h = map humidity buffer
      /\ data c = map co2 buffer.
Proof.
  intros store index sensorId Hfew Hkey timeline buffer.
  assert (Hall : forall t, stored_instant store t -> In t timeline).
  { intros t Ht. destruct (@timeline_cases store t Ht) as [H|[Hlen Hlt]];
      [assumption|].
    unfold timeline, uniqueTimestamps.
    rewrite slice_last_all; [now apply distinct_instants_In|].
    apply Hfew; [apply Set_from_NoDup|].
    intros u Hu. now apply distinct_instants_In. }
  assert (Hf : filter (on_timeline timeline) buffer = buffer).
  { apply filter_all. intros d Hd. apply on_timeline_In, Hall.
    now apply (@buffer_of_stored store sensorId). }
  exists (temperature_dataset store timeline sensorId index),
    (humidity_dataset store timeline sensorId index),
    (co2_dataset store timeline sensorId index).
  split; [now apply temperature_dataset_at|].
  split; [now apply humidity_dataset_at|].
  split; [now apply co2_dataset_at|].
  simpl. fold buffer. now rewrite Hf.
Qed.

Lemma datasets_show_whole_buffers_witness :
  let store :=
    sensorsData (run [reading_event "hvac_kitchen" 3000 21;
                      reading_event "hvac_kitchen" 1000 22]
                   (constructed blank_page true true)) in
  exists t,
    nth_error (temperature_datasets store (uniqueTimestamps store)) 0 = Some t
    /\ data t = [JS.Num 21; JS.Num 22].
Proof.
  cbv zeta.
  set (store := sensorsData (run [reading_event "hvac_kitchen" 3000 21;
                                  reading_event "hvac_kitchen" 1000 22]
                               (constructed blank_page true true))).
  assert (Hfew : forall l, NoDup l ->
                   (forall t, In t l -> stored_instant store t) ->
                   (List.length l <= 20)%nat).
  { intros l Hnd Hl.
    assert (Hincl : incl l [3000; 1000]).
    { intros t Ht. destruct (Hl t Ht) as (k & b & r & Hk & Hr & <-).
      destruct Hk as [Hk|[]]. injection Hk as <- <-.
      destruct Hr as [<-|[<-|[]]]; simpl; auto. }
    pose proof (NoDup_incl_length Hnd Hincl) as H. simpl in H. lia. }
  destruct (@datasets_show_whole_buffers store 0%nat "hvac_kitchen" Hfew
              eq_refl) as (t & h & c & Ht & _ & _ & Hd & _).
  exists t. split; [exact Ht|]. rewrite Hd. reflexivity.
Defined.



(* ===================================================================== *)
(** ** The sensors of the store over a feed *)
(* ===================================================================== *)

Lemma store_reading_first_seen ev d :
  first_seen (sensorsData (state_after (store_reading ev d)))
  = first_seen (sensorsData d)
    ++ match JS.get (sensorsData d) (rt_sensor_id ev) with
       | JS.Absent => [rt_sensor_id ev]
       | _ => []
       end.
Proof.
  unfold first_seen. run_step.
  destruct (JS.own (sensorsData d) (rt_sensor_id ev)) as [b|] eqn:Eown;
    [|destruct (JS.inherited (rt_sensor_id ev)) eqn:Ei];
    destruct (reading_literal ev) as [r|] eqn:Er; simpl;
    rewrite ?Eown, ?Ei, ?own_set_same; simpl;
    rewrite ?own_set_same; simpl;
    try match goal with
      | |- context [(50 <? ?n)%nat] => destruct (Nat.ltb_spec 50 n)
      end; simpl;
    rewrite ?app_nil_r;
    repeat (erewrite keys_set_present by (rewrite ?own_set_same; eauto));
    rewrite ?keys_set_absent by assumption; auto.
Qed.

Lemma run_app events more d : run (events ++ more) d = run more (run events d).
Proof.
  revert d. induction events as [|e events IH]; intros d; simpl; auto.
Qed.

Lemma first_seen_step e d :
  NoDup (first_seen (sensorsData d)) ->
  NoDup (first_seen (sensorsData (state_after (dispatch e d))))
  /\ exists added,
       first_seen (sensorsData (state_after (dispatch e d)))
       = first_seen (sensorsData d) ++ added.
Proof.
  intros Hnd. rewrite dispatch_store.
  destruct e as [| |idata|ev|a|system_status| |r];
    try (split; [assumption|exists []; now rewrite app_nil_r]).
  rewrite store_reading_first_seen. split; [|eauto].
  unfold JS.get.
  destruct (JS.own (sensorsData d) (rt_sensor_id ev)) eqn:E;
    [now rewrite app_nil_r|].
  destruct (JS.inherited (rt_sensor_id ev)); [now rewrite app_nil_r|].
  apply own_None_not_key in E.
  apply NoDup_app; auto.
  - constructor; [intros []|constructor].
  - intros x Hx [<-|[]]. now apply E.
Qed.

Lemma first_seen_run events : forall d,
  NoDup (first_seen (sensorsData d)) ->
  NoDup (first_seen (sensorsData (run events d)))
  /\ exists added,
       first_seen (sensorsData (run events d))
       = first_seen (sensorsData d) ++ added.
Proof.
  induction events as [|e events IH]; intros d Hnd.
  - split; [assumption|exists []; now rewrite app_nil_r].
  - simpl. destruct (first_seen_step e d Hnd) as [Hnd1 [a1 E1]].
    destruct (IH _ Hnd1) as [Hnd2 [a2 E2]].
    split; [assumption|]. exists (a1 ++ a2).
    now rewrite E2, E1, app_assoc.
Qed.

(** X17. Over a session the store never holds a sensor twice and never
    drops or reorders one: after any further events, the first-seen order
    of the sensors is the earlier order followed by the sensors seen
    since. *)
Theorem sensors_keep_first_seen_order :
  forall p temperatureCanvas humidityCanvas events more,
    let init := constructed p temperatureCanvas humidityCanvas in
    let earlier := first_seen (sensorsData (run events init)) in
    let later := first_seen (sensorsData (run (events ++ more) init)) in
    NoDup later /\ exists added, later = earlier ++ added.
Proof.
  intros p tc hc events more init earlier later.
  assert (H0 : NoDup (first_seen (sensorsData init))) by constructor.
  destruct (first_seen_run events init H0) as [H1 _].
  unfold later. rewrite run_app.
  exact (first_seen_run more (run events init) H1).
Qed.

Lemma forallb_app_l {A} (p : A -> bool) (l l' : list A) :
  forallb p (l ++ l') = true -> forallb p l = true.
Proof. rewrite forallb_app. intros H. now apply andb_true_iff in H. Qed.

(** X18. A sensor keeps its colour for the whole session as long as no
    sensor id that is an array index is ever stored: the sensor that is
    i-th in the store keeps position i, its label and palette entry
    i mod 8 in the temperature chart after any further events. *)
Theorem plain_sensor_keeps_its_color :
  forall p temperatureCanvas humidityCanvas events more index sensorId,
    let init := constructed p temperatureCanvas humidityCanvas in
    let store1 := sensorsData (run events init) in
    let store2 := sensorsData (run (events ++ more) init) in
    plain_ids store2 = true ->
    nth_error (first_seen store1) index = Some sensorId ->
    exists t1 t2,
      nth_error (temperature_datasets store1 (uniqueTimestamps store1)) index
      = Some t1
      /\ nth_error (temperature_datasets store2 (uniqueTimestamps store2))
           index = Some t2
      /\ label t1 = name_text (getSensorName sensorId)
      /\ label t2 = name_text (getSensorName sensorId)
      /\ borderColor t1 = borderColor t2
      /\ nth_error sensorColors (index mod 8) = Some (borderColor t2).
Proof.
  intros p tc hc events more index sensorId init store1 store2 Hplain Hi.
  assert (H0 : NoDup (first_seen (sensorsData init))) by constructor.
  destruct (first_seen_run events init H0) as [H1 _].
  destruct (first_seen_run more (run events init) H1) as [_ [added E]].
  rewrite <- run_app in E. fold store1 store2 in E.
  assert (Hplain1 : plain_ids store1 = true).
  { unfold plain_ids in *. rewrite E in Hplain.
    now apply forallb_app_l in Hplain. }
  assert (K1 : nth_error (JS.keys store1) index = Some sensorId)
    by now rewrite keys_plain.
  assert (K2 : nth_error (JS.keys store2) index = Some sensorId).
  { rewrite keys_plain, E by assumption.
    rewrite nth_error_app1; [assumption|].
    apply nth_error_Some. congruence. }
  exists (temperature_dataset store1 (uniqueTimestamps store1) sensorId index),
    (temperature_dataset store2 (uniqueTimestamps store2) sensorId index).
  split; [now apply temperature_dataset_at|].
  split; [now apply temperature_dataset_at|].
  repeat split. apply sensorColor_palette.
Qed.

Lemma plain_sensor_keeps_its_color_witness :
  let init := constructed blank_page true true in
  let events := [reading_event "hvac_kitchen" 1000 21] in
  let more := [reading_event "hvac_reception" 2000 22;
               reading_event "hvac_kitchen" 3000 23] in
  plain_ids (sensorsData (run (events ++ more) init)) = true
  /\ nth_error (first_seen (sensorsData (run events init))) 0
     = Some "hvac_kitchen"
  /\ exists t2,
       nth_error
         (temperature_datasets (sensorsData (run (events ++ more) init))
            (uniqueTimestamps (sensorsData (run (events ++ more) init)))) 0
       = Some t2
       /\ label t2 = name_text (getSensorName "hvac_kitchen").
Proof.
  cbv zeta. split; [reflexivity|]. split; [reflexivity|].
  destruct (@plain_sensor_keeps_its_color blank_page true true
              [reading_event "hvac_kitchen" 1000 21]
              [reading_event "hvac_reception" 2000 22;
               reading_event "hvac_kitchen" 3000 23]
              0%nat "hvac_kitchen" eq_refl eq_refl)
    as (t1 & t2 & _ & H2 & _ & L2 & _).
  exists t2. split; [exact H2|exact L2].
Defined.

(** X19. The series store is written by reading events alone, and a
    reading event writes the buffer of its own sensor alone: any other
    event, and a reading event of another sensor, leaves a sensor's buffer
    as it is, whether the handler returns or raises. *)
Theorem buffer_is_written_by_own_readings_only :
  forall e d sensorId,
    match e with
    | RealtimeData ev => rt_sensor_id ev <> sensorId
    | _ => True
    end ->
    JS.own (sensorsData (state_after (dispatch e d))) sensorId
    = JS.own (sensorsData d) sensorId.
Proof.
  intros e d sensorId H. rewrite dispatch_store.
  destruct e as [| |idata|ev|a|system_status| |r]; try reflexivity.
  rewrite store_reading_own. cbv zeta.
  destruct (String.eqb_spec (rt_sensor_id ev) sensorId); [contradiction|].
  reflexivity.
Qed.

Lemma buffer_is_written_by_own_readings_only_witness :
  let d := run [reading_event "hvac_kitchen" 1000 21]
             (constructed blank_page true true) in
  JS.own (sensorsData
            (state_after (dispatch (reading_event "hvac_reception" 2000 22) d)))
    "hvac_kitchen"
  = JS.own (sensorsData d) "hvac_kitchen".
Proof.
  cbv zeta.
  apply (@buffer_is_written_by_own_readings_only
           (reading_event "hvac_reception" 2000 22)).
  simpl. discriminate.
Defined.
